(** * A model of [backend/tcpio/tcp_server.py]

    The class [TCPServer] keeps two dictionaries ([clients], [truck_sockets]),
    a [running] flag and a listening socket.  Every method is a sequence of
    socket calls wrapped in [try]/[except]/[finally] blocks, so the model is a
    state-and-exception monad: a raised exception keeps the state changes
    made before it, exactly as in Python.  What the operating system, the
    peer, the codec ([TCPProtocol]) and the consumer ([MainController])
    answer is not decided by this file; those answers are supplied to every
    method as an explicit record of outcomes. *)

From Stdlib Require Import List String Ascii ZArith NArith Bool Arith Lia.
From Stdlib Require Import Strings.Byte.
From Stdlib Require Import DecimalString.
Import ListNotations.
Local Open Scope list_scope.

Set Implicit Arguments.

(** ** Python values used by the server *)

(** A socket object; two sockets are [==] exactly when they are the same
    object, so a socket is its identity. *)
Definition sock := nat.

Definition bytes := list byte.

(** The peer address returned by [accept()]: [(host, port)]. *)
Definition addr := (string * N)%type.

(** Keys that reach the [clients] dictionary: the address tuples stored by
    [start] and whatever identifier a caller hands to [send_message]. *)
Inductive pykey :=
| KStr (s : string)
| KAddr (a : addr).

(** Values found in [clients]: [start] stores the plain socket, while
    [send_message] subscripts the value with ["socket"]. *)
Inductive client_val :=
| PlainSocket (s : sock)
| SocketRecord (s : sock).

Inductive exn_class :=
| ConnectionResetError
| ConnectionAbortedError
| SocketTimeout
| OSError
| TypeError
| AttributeError
| ImportError
| OtherException.

(** An exception object: its class and [str(e)]. *)
Record exn := mk_exn { exn_cls : exn_class; exn_msg : string }.

(** [isinstance(e, OSError)]: the connection errors and [socket.timeout] are
    subclasses of [OSError]. *)
Definition is_OSError (e : exn) : bool :=
  match exn_cls e with
  | ConnectionResetError | ConnectionAbortedError | SocketTimeout | OSError => true
  | TypeError | AttributeError | ImportError | OtherException => false
  end.

(** [needle in hay] for strings. *)
Fixpoint contains (needle hay : string) : bool :=
  if String.prefix needle hay then true
  else match hay with
       | EmptyString => false
       | String _ rest => contains needle rest
       end.

Definition payload := list (string * string).

(** The dictionary returned by [TCPProtocol.parse_message]; only the keys the
    server looks at are kept, [None] standing for a missing key (or a [None]
    value, which [dict.get] does not distinguish). *)
Record message := mk_message {
  msg_type : option string;
  msg_sender : option string;
  msg_cmd : option string;
  msg_payload : payload
}.

(** Truthiness of [message.get("sender")]. *)
Definition truthy (o : option string) : bool :=
  match o with
  | Some EmptyString | None => false
  | Some _ => true
  end.

Definition opt_str_eqb (o : option string) (s : string) : bool :=
  match o with
  | Some s' => String.eqb s' s
  | None => false
  end.

(** ** Dictionaries

    Python dictionaries iterate in insertion order, and the server relies on
    iteration ([for tid, sock in self.truck_sockets.items()] with [break]),
    so a dictionary is an association list with unique keys in insertion
    order. *)

Class KeyEq (K : Type) := keq : K -> K -> bool.

Definition addr_eqb (a b : addr) : bool :=
  String.eqb (fst a) (fst b) && N.eqb (snd a) (snd b).

Definition pykey_eqb (a b : pykey) : bool :=
  match a, b with
  | KStr x, KStr y => String.eqb x y
  | KAddr x, KAddr y => addr_eqb x y
  | _, _ => false
  end.

#[export] Instance string_KeyEq : KeyEq string := String.eqb.

#[export] Instance pykey_KeyEq : KeyEq pykey := pykey_eqb.

Section PyDict.
Context {K V : Type} `{KeyEq K}.

Definition dict := list (K * V).

(** [d.get(k)] *)
Fixpoint dict_get (k : K) (d : dict) : option V :=
  match d with
  | [] => None
  | (k', v) :: rest => if keq k k' then Some v else dict_get k rest
  end.

(** [k in d] *)
Definition dict_mem (k : K) (d : dict) : bool :=
  match dict_get k d with Some _ => true | None => false end.

(** [d[k] = v]: an existing key keeps its position. *)
Fixpoint dict_set (k : K) (v : V) (d : dict) : dict :=
  match d with
  | [] => [(k, v)]
  | (k', v') :: rest =>
      if keq k k' then (k', v) :: rest else (k', v') :: dict_set k v rest
  end.

(** [del d[k]] for a key that is present. *)
Fixpoint dict_del (k : K) (d : dict) : dict :=
  match d with
  | [] => []
  | (k', v') :: rest =>
      if keq k k' then rest else (k', v') :: dict_del k rest
  end.

Definition dict_keys (d : dict) : list K := map fst d.
End PyDict.

Arguments dict : clear implicits.

(** ** Observable effects *)

Inductive log_tag :=
| LogPortInUse | LogServerStarted | LogClientConnected | LogServerSocketError
| LogServerError | LogCommanderError | LogActivityCheck | LogConnectionAlive
| LogConnectionLost | LogConnectionClosed | LogIncompleteHeader
| LogIncompletePayload | LogRawData | LogParseFailed | LogParseError
| LogRegistered | LogHeartbeat | LogHeartbeatAckError | LogHandlerError
| LogConnectionReset | LogConnectionAborted | LogSocketTimeout
| LogHeartbeatCheckSent | LogUnregisteredTimeout | LogHeartbeatCheckFailed
| LogIterationError | LogTruckDisconnected | LogCleanupCommanderError
| LogCleanupError | LogSafeStopBegin | LogClientClosed | LogClientCloseError
| LogServerSocketClosed | LogServerSocketCloseError | LogSafeStopDone
| LogStopDone | LogSend | LogSendNoClient | LogSendError
| LogKeepaliveUnsupported.

(** Calls that leave the process, in the order they were made (newest
    first).  [EvSend] carries whether the write succeeded. *)
Inductive event :=
| EvLog (t : log_tag)
| EvSocket (s : sock)
| EvBind (s : sock) (a : addr)
| EvListen (s : sock) (backlog : N)
| EvSleep (secs : Z)
| EvSpawnHandler (s : sock) (a : addr)
| EvSend (s : sock) (data : bytes) (ok : bool)
| EvShutdown (s : sock)
| EvClose (s : sock)
| EvSetCommander (reg : dict string sock)
| EvHandleMessage (m : message).

(** ** The server object and its surroundings *)

Record state := mk_state {
  host : string;
  port : N;
  clients : dict pykey client_val;      (* self.clients *)
  truck_sockets : dict string sock;     (* self.truck_sockets *)
  running : bool;                       (* self.running *)
  server_sock : option sock;            (* None: no attribute server_sock *)
  closed : list sock;                   (* sockets on which close() ran *)
  next_sock : sock;                     (* next object socket.socket() makes *)
  trace : list event
}.

Definition set_clients (f : dict pykey client_val -> dict pykey client_val) (st : state) :=
  mk_state (host st) (port st) (f (clients st)) (truck_sockets st) (running st)
    (server_sock st) (closed st) (next_sock st) (trace st).

Definition set_truck_sockets (f : dict string sock -> dict string sock) (st : state) :=
  mk_state (host st) (port st) (clients st) (f (truck_sockets st)) (running st)
    (server_sock st) (closed st) (next_sock st) (trace st).

Definition set_running (b : bool) (st : state) :=
  mk_state (host st) (port st) (clients st) (truck_sockets st) b
    (server_sock st) (closed st) (next_sock st) (trace st).

Definition set_server_sock (o : option sock) (st : state) :=
  mk_state (host st) (port st) (clients st) (truck_sockets st) (running st)
    o (closed st) (next_sock st) (trace st).

Definition mark_closed (s : sock) (st : state) :=
  mk_state (host st) (port st) (clients st) (truck_sockets st) (running st)
    (server_sock st) (s :: closed st) (next_sock st) (trace st).

Definition bump_next_sock (st : state) :=
  mk_state (host st) (port st) (clients st) (truck_sockets st) (running st)
    (server_sock st) (closed st) (S (next_sock st)) (trace st).

Definition emit (e : event) (st : state) :=
  mk_state (host st) (port st) (clients st) (truck_sockets st) (running st)
    (server_sock st) (closed st) (next_sock st) (e :: trace st).

(** [TCPServer.__init__]: empty dictionaries, not running, no [server_sock]
    attribute yet; the consumer is handed the (empty) registry. *)
Definition init (h : string) (p : N) : state :=
  mk_state h p [] [] false None [] 0 [EvSetCommander []].

(** ** The monad *)

(** The outcome of running a piece of code: a value, a raised exception, or
    [Blocked] when the code is still waiting for input that the supplied
    script does not contain (it has not returned). *)
Inductive result (A : Type) :=
| Val (a : A)
| Raise (e : exn)
| Blocked.

Arguments Val {A} a.
Arguments Raise {A} e.
Arguments Blocked {A}.

Definition M (S A : Type) := S -> result A * S.

Definition ret {S A} (a : A) : M S A := fun s => (Val a, s).

Definition bind {S A B} (m : M S A) (k : A -> M S B) : M S B :=
  fun s =>
    match m s with
    | (Val a, s') => k a s'
    | (Raise e, s') => (Raise e, s')
    | (Blocked, s') => (Blocked, s')
    end.

Definition raise {S A} (e : exn) : M S A := fun s => (Raise e, s).

Definition blocked {S A} : M S A := fun s => (Blocked, s).

Definition gets {S A} (f : S -> A) : M S A := fun s => (Val (f s), s).

Definition modify {S} (f : S -> S) : M S unit := fun s => (Val tt, f s).

(** The answer of a call into the outside world. *)
Definition call {S A} (r : exn + A) : M S A :=
  match r with
  | inl e => raise e
  | inr a => ret a
  end.

(** [try: body  except <classes matched by handles> as e: handler e]. *)
Definition try_except {S A} (body : M S A) (handles : exn -> bool)
    (handler : exn -> M S A) : M S A :=
  fun s =>
    match body s with
    | (Raise e, s') => if handles e then handler e s' else (Raise e, s')
    | r => r
    end.

(** [try: body  finally: fin].  Code that has not left [body] has not run
    [fin]. *)
Definition try_finally {S A} (body : M S A) (fin : M S unit) : M S A :=
  fun s =>
    match body s with
    | (Blocked, s') => (Blocked, s')
    | (r, s') =>
        match fin s' with
        | (Val _, s'') => (r, s'')
        | (Raise e, s'') => (Raise e, s'')
        | (Blocked, s'') => (Blocked, s'')
        end
    end.

(** [except Exception] and a bare [except]: every class of the model. *)
Definition any_exception (e : exn) : bool := true.

Declare Scope py_scope.
Delimit Scope py_scope with py.
Notation "x <- m ;; k" := (bind m (fun x => k))
  (at level 61, m at next level, right associativity) : py_scope.
Notation "m ;; k" := (bind m (fun _ => k))
  (at level 61, right associativity) : py_scope.
Local Open Scope py_scope.

(** [for x in xs: body x] *)
Fixpoint for_each {S A} (xs : list A) (body : A -> M S unit) : M S unit :=
  match xs with
  | [] => ret tt
  | x :: rest => body x ;; for_each rest body
  end.

(** ** Primitive calls on the server state *)

Definition log (t : log_tag) : M state unit := modify (emit (EvLog t)).

(** [socket.socket(...)]: a socket object distinct from every earlier one. *)
Definition new_socket : M state sock :=
  s <- gets next_sock ;;
  modify bump_next_sock ;;
  modify (emit (EvSocket s)) ;;
  ret s.

(** [s.sendall(data)] / [s.send(data)] with the given outcome. *)
Definition sock_send (s : sock) (data : bytes) (outcome : exn + unit) : M state unit :=
  modify (emit (EvSend s data (match outcome with inr _ => true | inl _ => false end))) ;;
  call outcome.

(** [s.recv(n)]: at most [n] bytes of what the peer delivered. *)
Definition sock_recv {S} (n : nat) (outcome : exn + bytes) : M S bytes :=
  data <- call outcome ;;
  ret (firstn n data).

(** [s.shutdown(SHUT_RDWR)] *)
Definition sock_shutdown (s : sock) (outcome : exn + unit) : M state unit :=
  modify (emit (EvShutdown s)) ;;
  call outcome.

(** [s.close()]: the object is closed even when the call reports an error. *)
Definition sock_close (s : sock) (outcome : exn + unit) : M state unit :=
  modify (emit (EvClose s)) ;;
  modify (mark_closed s) ;;
  call outcome.

(** [self.app.set_truck_commander(self.truck_sockets)] *)
Definition set_truck_commander (outcome : exn + unit) : M state unit :=
  reg <- gets truck_sockets ;;
  modify (emit (EvSetCommander reg)) ;;
  call outcome.

(** [self.app.handle_message(message)] *)
Definition app_handle_message (m : message) (outcome : exn + unit) : M state unit :=
  modify (emit (EvHandleMessage m)) ;;
  call outcome.

(** ** The codec

    [backend.tcpio.protocol.TCPProtocol] is imported, not defined, by the
    server; it is a parameter of everything below. *)
Record codec := mk_codec {
  parse_message : bytes -> exn + message;
  build_message : string -> option pykey -> string -> payload -> exn + bytes
}.

(** ** One connection: [handle_client] *)

(** The arguments of [handle_client(client_sock, addr)]. *)
Record conn := mk_conn { client_sock : sock; client_addr : addr }.

(** [f"TEMP_{addr[1]}"] *)
Definition temp_truck_id (c : conn) : string :=
  ("TEMP_" ++ NilZero.string_of_uint (N.to_uint (snd (client_addr c))))%string.

(** The handler's local variable [last_activity_time] next to the shared
    server state. *)
Record hstate := mk_hstate { srv : state; last_activity_time : Z }.

Definition lift {A} (m : M state A) : M hstate A :=
  fun h =>
    match m (srv h) with
    | (r, s') => (r, mk_hstate s' (last_activity_time h))
    end.

Definition set_last (t : Z) : M hstate unit :=
  modify (fun h => mk_hstate (srv h) t).

(** Run handler code that starts with [last_activity_time = t0]. *)
Definition run_local {A} (t0 : Z) (m : M hstate A) : M state A :=
  fun s =>
    match m (mk_hstate s t0) with
    | (r, h) => (r, srv h)
    end.

(** What the outside world answers during one pass through the [while True]
    loop; a field is consulted only if the pass reaches that call. *)
Record iter_io := mk_iter_io {
  io_now : Z;                  (* time.time() at the top of the pass *)
  io_probe : exn + unit;       (* client_sock.send(b'') *)
  io_header : exn + bytes;     (* client_sock.recv(4) *)
  io_payload : exn + bytes;    (* client_sock.recv(payload_len) *)
  io_commander : exn + unit;   (* app.set_truck_commander(...) *)
  io_ack : exn + unit;         (* client_sock.sendall(response) *)
  io_consumer : exn + unit;    (* app.handle_message(message) *)
  io_check : exn + unit;       (* client_sock.sendall(heartbeat_msg) *)
  io_now_after_check : Z       (* time.time() after the probe *)
}.

(** What the outside world answers over the life of one handler. *)
Record conn_io := mk_conn_io {
  io_commander_initial : exn + unit;
  io_keepalive : exn + unit;   (* the setsockopt calls of lines 158-165 *)
  io_start_time : Z;
  io_script : list iter_io;
  io_close : exn + unit;       (* client_sock.close() *)
  io_commander_final : exn + unit
}.

Inductive ctl := Continue | Break.

(** Either the value the straight-line code goes on with, or the [continue]
    / [break] that cut the pass short. *)
Inductive flow (A : Type) :=
| Next (a : A)
| Jump (j : ctl).

Arguments Next {A} a.
Arguments Jump {A} j.

(** The first identifier of [client_sock] that does not start with
    ["TEMP_"] (lines 281-285). *)
Fixpoint registered_truck_id (cs : sock) (items : dict string sock) : option string :=
  match items with
  | [] => None
  | (tid, s) :: rest =>
      if Nat.eqb s cs && negb (String.prefix "TEMP_" tid) then Some tid
      else registered_truck_id cs rest
  end.

(** [header_data[3]] *)
Definition payload_len (header_data : bytes) : nat :=
  N.to_nat (Byte.to_N (nth 3 header_data x00)).

Section Handler.
Variable TCPProtocol : codec.

(** Lines 176-188; [true] is the [break]. *)
Definition activity_check (c : conn) (io : iter_io) : M hstate bool :=
  last <- gets last_activity_time ;;
  if (io_now io - last >? 300)%Z then
    lift (log LogActivityCheck) ;;
    try_except
      (lift (sock_send (client_sock c) [] (io_probe io)) ;;
       set_last (io_now io) ;;
       lift (log LogConnectionAlive) ;;
       ret false)
      any_exception
      (fun _ => lift (log LogConnectionLost) ;; ret true)
  else ret false.

(** Lines 190-215. *)
Definition read_frame (c : conn) (io : iter_io) : M hstate (flow bytes) :=
  header_data <- sock_recv 4 (io_header io) ;;
  if List.length header_data =? 0 then
    lift (log LogConnectionClosed) ;; ret (Jump Break)
  else if List.length header_data <? 4 then
    lift (log LogIncompleteHeader) ;; ret (Jump Continue)
  else
    set_last (io_now io) ;;
    let payload_len := payload_len header_data in
    p <- (if 0 <? payload_len then
            payload_data <- sock_recv payload_len (io_payload io) ;;
            if List.length payload_data <? payload_len then
              lift (log LogIncompletePayload) ;; ret (Jump Continue)
            else ret (Next payload_data)
          else ret (Next [])) ;;
    match p with
    | Jump j => ret (Jump j)
    | Next payload_data => ret (Next (header_data ++ payload_data))
    end.

(** Lines 219-226. *)
Definition decode (raw_data : bytes) : M hstate (flow message) :=
  try_except
    (message <- call (parse_message TCPProtocol raw_data) ;;
     if opt_str_eqb (msg_type message) "INVALID" then
       lift (log LogParseFailed) ;; ret (Jump Continue)
     else ret (Next message))
    any_exception
    (fun _ => lift (log LogParseError) ;; ret (Jump Continue)).

(** Lines 229-243. *)
Definition register (c : conn) (io : iter_io) (message : message) : M hstate unit :=
  match msg_sender message with
  | Some truck_id =>
      if truthy (Some truck_id) then
        reg <- lift (gets truck_sockets) ;;
        (if negb (dict_mem truck_id reg) then
           lift (log LogRegistered) ;;
           if dict_mem (temp_truck_id c) reg then
             lift (modify (set_truck_sockets (dict_del (temp_truck_id c))))
           else ret tt
         else ret tt) ;;
        lift (modify (set_truck_sockets (dict_set truck_id (client_sock c)))) ;;
        try_except (lift (set_truck_commander (io_commander io)))
          any_exception
          (fun _ => lift (log LogCommanderError))
      else ret tt
  | None => ret tt
  end.

(** Lines 246-268. *)
Definition dispatch (c : conn) (io : iter_io) (message : message) : M hstate ctl :=
  if opt_str_eqb (msg_cmd message) "HELLO" then
    lift (log LogHeartbeat) ;;
    try_except
      (response <- call (build_message TCPProtocol "SERVER"
                           (option_map KStr (msg_sender message))
                           "HEARTBEAT_ACK" []) ;;
       lift (sock_send (client_sock c) response (io_ack io)))
      any_exception
      (fun _ => lift (log LogHeartbeatAckError)) ;;
    ret Continue
  else
    try_except (lift (app_handle_message message (io_consumer io)))
      any_exception
      (fun _ => lift (log LogHandlerError)) ;;
    ret Continue.

(** The body of the [try] of lines 175-268. *)
Definition iteration_body (c : conn) (io : iter_io) : M hstate ctl :=
  stop <- activity_check c io ;;
  if stop : bool then ret Break
  else
    f <- read_frame c io ;;
    match f with
    | Jump j => ret j
    | Next raw_data =>
        lift (log LogRawData) ;;
        d <- decode raw_data ;;
        match d with
        | Jump j => ret j
        | Next message =>
            register c io message ;;
            dispatch c io message
        end
    end.

(** Lines 276-304. *)
Definition on_timeout (c : conn) (io : iter_io) : M hstate ctl :=
  lift (log LogSocketTimeout) ;;
  try_except
    (reg <- lift (gets truck_sockets) ;;
     let rid := registered_truck_id (client_sock c) reg in
     if truthy rid then
       heartbeat_msg <- call (build_message TCPProtocol "SERVER"
                                (option_map KStr rid)
                                "HEARTBEAT_CHECK" []) ;;
       lift (sock_send (client_sock c) heartbeat_msg (io_check io)) ;;
       lift (log LogHeartbeatCheckSent) ;;
       set_last (io_now_after_check io) ;;
       ret Continue
     else
       lift (log LogUnregisteredTimeout) ;; ret Break)
    any_exception
    (fun _ => lift (log LogHeartbeatCheckFailed) ;; ret Break).

(** One pass through the loop with its [except] clauses (lines 175-310). *)
Definition iteration (c : conn) (io : iter_io) : M hstate ctl :=
  try_except (iteration_body c io) any_exception
    (fun e =>
       match exn_cls e with
       | ConnectionResetError => lift (log LogConnectionReset) ;; ret Break
       | ConnectionAbortedError => lift (log LogConnectionAborted) ;; ret Break
       | SocketTimeout => on_timeout c io
       | _ => lift (log LogIterationError) ;; ret Continue
       end).

(** [while True:]; when the script is used up the handler is waiting in
    [recv]. *)
Fixpoint client_loop (c : conn) (script : list iter_io) : M hstate unit :=
  match script with
  | [] => blocked
  | io :: rest =>
      j <- iteration c io ;;
      match j with
      | Break => ret tt
      | Continue => client_loop c rest
      end
  end.

(** The [finally] block (lines 312-334). *)
Definition cleanup (c : conn) (cio : conn_io) : M state unit :=
  try_except
    (sock_close (client_sock c) (io_close cio) ;;
     snapshot <- gets truck_sockets ;;
     for_each snapshot
       (fun item =>
          if Nat.eqb (snd item) (client_sock c) then
            modify (set_truck_sockets (dict_del (fst item))) ;;
            log LogTruckDisconnected
          else ret tt) ;;
     cl <- gets clients ;;
     (if dict_mem (KAddr (client_addr c)) cl then
        modify (set_clients (dict_del (KAddr (client_addr c))))
      else ret tt) ;;
     try_except (set_truck_commander (io_commander_final cio))
       any_exception
       (fun _ => log LogCleanupCommanderError))
    any_exception
    (fun _ => log LogCleanupError).

(** Lines 142-170. *)
Definition handler_setup (c : conn) (cio : conn_io) : M state unit :=
  modify (set_truck_sockets (dict_set (temp_truck_id c) (client_sock c))) ;;
  try_except (set_truck_commander (io_commander_initial cio))
    any_exception
    (fun _ => log LogCommanderError) ;;
  try_except (call (io_keepalive cio))
    (fun e => match exn_cls e with
              | ImportError | AttributeError => true
              | _ => false
              end)
    (fun _ => log LogKeepaliveUnsupported).

(** The loop from a given [last_activity_time], followed by the
    [finally] block. *)
Definition serve (c : conn) (cio : conn_io) (t0 : Z) (script : list iter_io) : M state unit :=
  try_finally (run_local t0 (client_loop c script)) (cleanup c cio).

Definition handle_client (c : conn) (cio : conn_io) : M state unit :=
  try_finally
    (handler_setup c cio ;;
     run_local (io_start_time cio) (client_loop c (io_script cio)))
    (cleanup c cio).
End Handler.

(** ** Shutdown: [safe_stop] and [stop] *)

(** What the sockets answer while the server shuts down. *)
Record stop_io := mk_stop_io {
  io_client_shutdown : sock -> exn + unit;
  io_client_close : sock -> exn + unit;
  io_server_shutdown : exn + unit;
  io_server_close : exn + unit
}.

(** The body of the loop of lines 349-355 for one entry of [clients]. *)
Definition close_tracked (sio : stop_io) (item : pykey * client_val) : M state unit :=
  try_except
    (match snd item with
     | PlainSocket s =>
         sock_shutdown s (io_client_shutdown sio s) ;;
         sock_close s (io_client_close sio s) ;;
         log LogClientClosed
     | SocketRecord _ =>
         raise (mk_exn AttributeError "'dict' object has no attribute 'shutdown'")
     end)
    any_exception
    (fun _ => log LogClientCloseError).

(** Lines 336-373. *)
Definition safe_stop (sio : stop_io) : M state unit :=
  old_running <- gets running ;;
  modify (set_running false) ;;
  if negb old_running then ret tt
  else
    log LogSafeStopBegin ;;
    cl <- gets clients ;;
    for_each cl (close_tracked sio) ;;
    try_except
      (ss <- gets server_sock ;;
       match ss with
       | Some s =>
           try_except (sock_shutdown s (io_server_shutdown sio))
             any_exception (fun _ => ret tt) ;;
           sock_close s (io_server_close sio) ;;
           log LogServerSocketClosed
       | None => ret tt
       end)
      any_exception
      (fun _ => log LogServerSocketCloseError) ;;
    modify (set_clients (fun _ => [])) ;;
    modify (set_truck_sockets (fun _ => [])) ;;
    log LogSafeStopDone.

(** Lines 375-389. *)
Definition stop (sio : stop_io) : M state unit :=
  r <- gets running ;;
  ss <- gets server_sock ;;
  if negb r && (match ss with None => true | Some _ => false end) then ret tt
  else
    safe_stop sio ;;
    log LogStopDone.

(** ** The listener: [start] *)

Inductive accept_event :=
| Accepted (a : addr)          (* accept() returned a connection from [a] *)
| AcceptRaised (e : exn)       (* accept() raised [e] *)
| QuiescedElsewhere (sio : stop_io) (e : exn).
                               (* another thread ran safe_stop() while this
                                  one waited in accept(), which then raised *)

Record start_io := mk_start_io {
  io_bind : exn + unit;          (* first bind() *)
  io_rebind : exn + unit;        (* bind() of the second socket *)
  io_listen : exn + unit;
  io_accepts : list accept_event;
  io_stop : stop_io              (* for the stop() of the finally block *)
}.

(** [socket.socket(...)] stored in [self.server_sock], with its options and
    accept timeout (lines 71-83, 96-102); creating and configuring a socket,
    and closing one that was never bound, are taken to succeed. *)
Definition open_listener : M state sock :=
  s <- new_socket ;;
  modify (set_server_sock (Some s)) ;;
  ret s.

Definition sock_bind (s : sock) (outcome : exn + unit) : M state unit :=
  h <- gets host ;;
  p <- gets port ;;
  modify (emit (EvBind s (h, p))) ;;
  call outcome.

(** Lines 71-105. *)
Definition bind_listener (sio : start_io) : M state unit :=
  s <- open_listener ;;
  try_except (sock_bind s (io_bind sio)) is_OSError
    (fun e =>
       if contains "Address already in use" (exn_msg e) then
         log LogPortInUse ;;
         sock_close s (inr tt) ;;
         modify (emit (EvSleep 5)) ;;
         s2 <- open_listener ;;
         sock_bind s2 (io_rebind sio)
       else raise e).

(** [self.server_sock.listen(5)] *)
Definition listen (outcome : exn + unit) : M state unit :=
  ss <- gets server_sock ;;
  match ss with
  | Some s => modify (emit (EvListen s 5)) ;; call outcome
  | None => raise (mk_exn AttributeError "'TCPServer' object has no attribute 'server_sock'")
  end.

(** Lines 127-131: an [OSError] from [accept()] ends the loop and is
    logged unless the server was stopped meanwhile. *)
Definition accept_failed : M state unit :=
  r <- gets running ;;
  if r : bool then log LogServerSocketError else ret tt.

(** Lines 111-131.  The handler thread is started, not run, here. *)
Fixpoint accept_loop (script : list accept_event) : M state unit :=
  r <- gets running ;;
  if negb r then ret tt
  else
    match script with
    | [] => blocked
    | Accepted a :: rest =>
        client_sock <- new_socket ;;
        modify (set_clients (dict_set (KAddr a) (PlainSocket client_sock))) ;;
        log LogClientConnected ;;
        modify (emit (EvSpawnHandler client_sock a)) ;;
        accept_loop rest
    | AcceptRaised e :: rest =>
        match exn_cls e with
        | SocketTimeout => accept_loop rest
        | _ => if is_OSError e then accept_failed else raise e
        end
    | QuiescedElsewhere sio e :: rest =>
        safe_stop sio ;;
        match exn_cls e with
        | SocketTimeout => accept_loop rest
        | _ => if is_OSError e then accept_failed else raise e
        end
    end.

(** Lines 66-137. *)
Definition start (sio : start_io) : M state unit :=
  modify (set_running true) ;;
  try_finally
    (try_except
       (bind_listener sio ;;
        listen (io_listen sio) ;;
        log LogServerStarted ;;
        accept_loop (io_accepts sio))
       any_exception
       (fun _ => log LogServerError))
    (stop (io_stop sio)).

(** ** Outbound messages: [send_message] *)

(** [value["socket"]]: a socket object is not subscriptable. *)
Definition subscript_socket (v : client_val) : M state sock :=
  match v with
  | PlainSocket _ => raise (mk_exn TypeError "'socket' object is not subscriptable")
  | SocketRecord s => ret s
  end.

(** [self._close_client(client_id)]: [TCPServer] defines no attribute of that
    name, so the lookup itself raises. *)
Definition close_client_call (client_id : pykey) : M state unit :=
  raise (mk_exn AttributeError "'TCPServer' object has no attribute '_close_client'").

Section Sender.
Variable TCPProtocol : codec.

(** Lines 391-421; [outcome] is what [client_sock.sendall(message)]
    answers. *)
Definition send_message (client_id : pykey) (cmd : string) (pl : option payload)
    (outcome : exn + unit) : M state bool :=
  let pl := match pl with None => [] | Some p => p end in
  (if negb (String.eqb cmd "HEARTBEAT_ACK") then log LogSend else ret tt) ;;
  cl <- gets clients ;;
  match dict_get client_id cl with
  | None => log LogSendNoClient ;; ret false
  | Some v =>
      client_sock <- subscript_socket v ;;
      message <- call (build_message TCPProtocol "SERVER" (Some client_id) cmd pl) ;;
      try_except
        (sock_send client_sock message outcome ;; ret true)
        any_exception
        (fun _ =>
           log LogSendError ;;
           close_client_call client_id ;;
           ret false)
  end.
End Sender.


(** ** Vocabulary of the properties *)

(** The socket writes recorded in a trace, newest first. *)
Fixpoint sends (t : list event) : list (sock * bytes * bool) :=
  match t with
  | [] => []
  | EvSend s data ok :: rest => (s, data, ok) :: sends rest
  | _ :: rest => sends rest
  end.

(** The messages handed to the consumer's [handle_message], newest first. *)
Fixpoint consumer_calls (t : list event) : list message :=
  match t with
  | [] => []
  | EvHandleMessage m :: rest => m :: consumer_calls rest
  | _ :: rest => consumer_calls rest
  end.

(** [tid.startswith("TEMP_")] *)
Definition is_temp (tid : string) : bool := String.prefix "TEMP_" tid.

(** Some key of the registry maps to the socket. *)
Definition registered (s : sock) (reg : dict string sock) : Prop :=
  exists tid, In (tid, s) reg.

(** Some key that is not a temporary identifier maps to the socket. *)
Definition identified (s : sock) (reg : dict string sock) : Prop :=
  exists tid, In (tid, s) reg /\ is_temp tid = false.

(** Every key that maps to the socket is a temporary identifier. *)
Definition anonymous (s : sock) (reg : dict string sock) : Prop :=
  forall tid, In (tid, s) reg -> is_temp tid = true.

(** The part of the state a caller of the server can see. *)
Definition observable (st : state) :=
  (clients st, truck_sockets st, running st, server_sock st, closed st).

(** The peer delivered part of a header, or a full header and less payload
    than the header announces. *)
Inductive short_read (io : iter_io) : Prop :=
| short_header (hd : bytes) :
    io_header io = inr hd ->
    0 < List.length hd < 4 ->
    short_read io
| short_payload (hd pd : bytes) :
    io_header io = inr hd ->
    4 <= List.length hd ->
    io_payload io = inr pd ->
    List.length pd < payload_len hd ->
    short_read io.

(** In this pass the handler passed the activity check in state [h0]. *)
Definition reaches_read (c : conn) (io : iter_io) (h h0 : hstate) : Prop :=
  activity_check c io h = (Val false, h0).

(** In this pass a [recv] raised [socket.timeout], leaving state [h1]. *)
Definition read_times_out (c : conn) (io : iter_io) (h h1 : hstate) : Prop :=
  exists h0 e,
    reaches_read c io h h0 /\
    read_frame c io h0 = (Raise e, h1) /\
    exn_cls e = SocketTimeout.

(** In this pass the handler read a frame and decoded it to [m], reaching
    line 229 in state [h1]. *)
Definition receives (P : codec) (c : conn) (io : iter_io) (h : hstate)
    (m : message) (h1 : hstate) : Prop :=
  exists h0 hr raw,
    reaches_read c io h h0 /\
    read_frame c io h0 = (Val (Next raw), hr) /\
    decode P raw (snd (lift (log LogRawData) hr)) = (Val (Next m), h1).

(** The result of a call with the given outcome. *)
Definition outcome_result {A} (o : exn + A) : result A :=
  match o with
  | inl e => Raise e
  | inr a => Val a
  end.

(** What shutting down the tracked sockets leaves alone. *)
Definition stop_frame (st0 st : state) : Prop :=
  running st = running st0 /\ server_sock st = server_sock st0 /\
  host st = host st0 /\ port st = port st0 /\
  incl (closed st0) (closed st).

(** The dictionaries, the closed sockets and the consumer calls are as
    before. *)
Definition untouched (st st' : state) : Prop :=
  truck_sockets st' = truck_sockets st /\ clients st' = clients st /\
  closed st' = closed st /\
  consumer_calls (trace st') = consumer_calls (trace st).

(** The registry after lines 229-236 have handled [message]. *)
Definition promoted (c : conn) (message : message) (reg : dict string sock)
    : dict string sock :=
  match msg_sender message with
  | Some truck_id =>
      if truthy (Some truck_id) then
        dict_set truck_id (client_sock c)
          (if negb (dict_mem truck_id reg) && dict_mem (temp_truck_id c) reg
           then dict_del (temp_truck_id c) reg
           else reg)
      else reg
  | None => reg
  end.

(** ** Concrete surroundings

    A stand-in codec and a few concrete outcomes, used to run the model on
    explicit inputs.  The stand-in reads the sender from header byte 0 and
    the command from header byte 2. *)
Module Sample.
Definition sender_of (b : byte) : option string :=
  match b with
  | x00 => None
  | x01 => Some "TRUCK_1"%string
  | x02 => Some "TRUCK_2"%string
  | _ => Some ""%string
  end.

Definition cmd_of (b : byte) : option string :=
  match b with
  | x01 => Some "HELLO"%string
  | x02 => Some "STATUS"%string
  | _ => None
  end.

Definition parse (raw : bytes) : exn + message :=
  match raw with
  | s :: _ :: c :: _ :: rest =>
      match c with
      | xff => inl (mk_exn OtherException "unknown command")
      | xfe => inr (mk_message (Some "INVALID"%string) None None [])
      | _ => inr (mk_message None (sender_of s) (cmd_of c) [])
      end
  | _ => inr (mk_message (Some "INVALID"%string) None None [])
  end.

Definition key_byte (r : option pykey) : byte :=
  match r with
  | Some (KStr "TRUCK_1") => x01
  | Some (KStr "TRUCK_2") => x02
  | _ => x00
  end.

Definition cmd_byte (c : string) : byte :=
  if String.eqb c "HEARTBEAT_ACK" then x10
  else if String.eqb c "HEARTBEAT_CHECK" then x11
  else x12.

Definition build (sender : string) (receiver : option pykey) (cmd : string)
    (pl : payload) : exn + bytes :=
  inr [x7f; key_byte receiver; cmd_byte cmd; x00].

Definition proto : codec := mk_codec parse build.

Definition ok : exn + unit := inr tt.
Definition fails (c : exn_class) (msg : string) : exn + unit := inl (mk_exn c msg).

(** A pass in which the peer delivers [header] and then [body], and every
    other call succeeds. *)
Definition delivers (now : Z) (header body : bytes) : iter_io :=
  mk_iter_io now ok (inr header) (inr body) ok ok ok ok now.

(** A pass in which [recv(4)] raises [e]. *)
Definition recv_raises (now : Z) (e : exn) : iter_io :=
  mk_iter_io now ok (inl e) (inr []) ok ok ok ok now.

Definition timeout : exn := mk_exn SocketTimeout "timed out".

Definition quiet (script : list iter_io) : conn_io :=
  mk_conn_io ok ok 0 script ok ok.

Definition calm : stop_io :=
  mk_stop_io (fun _ => ok) (fun _ => ok) ok ok.

Definition truck_a : conn := mk_conn 1 ("10.0.0.7"%string, 5000%N).
Definition truck_b : conn := mk_conn 2 ("10.0.0.7"%string, 5001%N).

(** A server that was started, accepted two connections and is waiting in
    [accept()] for more. *)
Definition two_accepted : state :=
  snd (start (mk_start_io ok ok ok
                [Accepted (client_addr truck_a); Accepted (client_addr truck_b)] calm)
         (init "0.0.0.0" 8000)).

(** The first connection identified as TRUCK_1 with a STATUS message and
    is waiting for more input. *)
Definition first_identified : state :=
  snd (handle_client proto truck_a
         (quiet [delivers 10 [x01; x00; x02; x00] []]) two_accepted).

(** Then the second connection identified as TRUCK_1 as well. *)
Definition second_identified : state :=
  snd (handle_client proto truck_b
         (quiet [delivers 20 [x01; x00; x02; x00] []]) first_identified).

(** A server whose [clients] holds, under the identifier TRUCK_1, an entry
    of the shape [send_message] subscripts: a record with a "socket"
    field. *)
Definition with_record : state :=
  set_clients (dict_set (KStr "TRUCK_1") (SocketRecord 1)) first_identified.

Definition reset : exn :=
  mk_exn ConnectionResetError "[Errno 104] Connection reset by peer".
End Sample.

(** ** Port probing: [is_port_in_use] and [find_available_port] *)

Definition sock_bind_at (s : sock) (a : addr) (outcome : exn + unit) : M state unit :=
  modify (emit (EvBind s a)) ;;
  call outcome.

(** Lines 31-47.  [probe] is what [bind] answers for an address; the [with]
    statement closes the socket on every way out. *)
Definition is_port_in_use (probe : addr -> exn + unit) (p : N) (h : string) : M state bool :=
  s <- new_socket ;;
  try_finally
    (try_except
       (sock_bind_at s (h, p) (probe (h, p)) ;; ret false)
       is_OSError
       (fun _ => ret true))
    (sock_close s (inr tt)).

(** [for port in range(p, p + count)] of lines 61-64. *)
Fixpoint scan_ports (probe : addr -> exn + unit) (h : string) (p : N) (count : nat)
    : M state (option N) :=
  match count with
  | O => ret None
  | S n =>
      used <- is_port_in_use probe p h ;;
      if negb used then ret (Some p) else scan_ports probe h (p + 1)%N n
  end.

(** Lines 49-64: [range(start_port, max_port + 1)] is empty when
    [max_port < start_port]. *)
Definition find_available_port (probe : addr -> exn + unit)
    (start_port max_port : N) (h : string) : M state (option N) :=
  scan_ports probe h start_port (N.to_nat (max_port + 1 - start_port)).

(** ** Further vocabulary *)

(** The registry without the entries of socket [s]. *)
Definition purge (s : sock) (reg : dict string sock) : dict string sock :=
  filter (fun item => negb (Nat.eqb (snd item) s)) reg.

(** Every value of [clients] is a plain socket, the only kind [start]
    stores. *)
Definition clients_plain (st : state) : Prop :=
  forall k v, In (k, v) (clients st) -> exists s, v = PlainSocket s.



(** The server object's own fields are as before. *)
Definition same_server (st st' : state) : Prop :=
  clients st' = clients st /\ truck_sockets st' = truck_sockets st /\
  running st' = running st /\ server_sock st' = server_sock st.

(** On a host where only port 8002 of 8000..8002 is free. *)
Definition only_8002_free (a : addr) : exn + unit :=
  if N.eqb (snd a) 8002 then inr tt
  else inl (mk_exn OSError "[Errno 98] Address already in use").

(** A running server with one connection, from port 5000, on socket 1:
    still under its temporary key, and identified as TRUCK_1. *)
Definition one_waiting : state :=
  mk_state "0.0.0.0" 8000 [(KAddr ("10.0.0.7"%string, 5000%N), PlainSocket 1)]
    [("TEMP_5000"%string, 1)] true (Some 0) [] 2 [].

Definition one_truck : state :=
  mk_state "0.0.0.0" 8000 [(KAddr ("10.0.0.7"%string, 5000%N), PlainSocket 1)]
    [("TRUCK_1"%string, 1)] true (Some 0) [] 2 [].

(** * Properties *)

Unset Implicit Arguments.

(** ** Shutdown *)

Ltac run_monad :=
  cbv [bind ret raise blocked gets modify call try_except try_finally
       any_exception log sock_send sock_recv sock_shutdown sock_close
       set_truck_commander app_handle_message new_socket].

Lemma for_each_inv {S A} (Inv : S -> Prop) (body : A -> M S unit) (xs : list A) :
  (forall x s, Inv s -> exists s', body x s = (Val tt, s') /\ Inv s') ->
  forall s, Inv s -> exists s', for_each xs body s = (Val tt, s') /\ Inv s'.
Proof.
  intros Hbody; induction xs as [|x xs IH]; intros s Hs; simpl.
  - exists s; split; [reflexivity | assumption].
  - destruct (Hbody x s Hs) as (s1 & E1 & H1).
    unfold bind; rewrite E1. apply IH; assumption.
Qed.

Lemma stop_frame_refl st : stop_frame st st.
Proof. unfold stop_frame; repeat split; apply incl_refl. Qed.

Lemma close_tracked_frame sio st0 item st :
  stop_frame st0 st ->
  exists st', close_tracked sio item st = (Val tt, st') /\ stop_frame st0 st'.
Proof.
  intros (Hr & Hs & Hh & Hp & Hc).
  destruct item as [k [s|s]]; unfold close_tracked; run_monad; simpl;
    [destruct (io_client_shutdown sio s) as [e|[]];
     [|destruct (io_client_close sio s) as [e|[]]]|];
    simpl; eexists; (split; [reflexivity|]);
    unfold stop_frame; simpl; repeat split; auto;
    intros x Hx; simpl; auto.
Qed.

Lemma safe_stop_stopped sio st :
  running st = false -> safe_stop sio st = (Val tt, st).
Proof.
  intros Hr; unfold safe_stop; run_monad; rewrite Hr; simpl.
  destruct st; simpl in *; subst; reflexivity.
Qed.

Lemma safe_stop_running sio st :
  running st = true ->
  exists st', safe_stop sio st = (Val tt, st') /\
    running st' = false /\ clients st' = [] /\ truck_sockets st' = [] /\
    server_sock st' = server_sock st /\
    (forall s, server_sock st = Some s -> In s (closed st')).
Proof.
  intros Hr; unfold safe_stop.
  cbv [bind gets modify log ret]; rewrite Hr; cbv [negb].
  set (st1 := emit (EvLog LogSafeStopBegin) (set_running false st)).
  destruct (for_each_inv (stop_frame st1) (close_tracked sio) (clients st1)) with (s := st1)
    as (st2 & E2 & (F1 & F2 & _)).
  { intros x s Hs; apply close_tracked_frame; assumption. }
  { apply stop_frame_refl. }
  rewrite E2.
  assert (Hss : server_sock st2 = server_sock st) by (rewrite F2; reflexivity).
  assert (Hrn : running st2 = false) by (rewrite F1; reflexivity).
  clearbody st1; clear E2 F1 F2.
  run_monad. rewrite Hss.
  destruct (server_sock st) as [s|]; simpl.
  - destruct (io_server_shutdown sio) as [e|[]], (io_server_close sio) as [e'|[]]; simpl;
      eexists; (split; [reflexivity|]); simpl; repeat split; auto;
      intros s0 [= <-]; auto.
  - eexists; split; [reflexivity|]; simpl; repeat split; auto; discriminate.
Qed.

Lemma safe_stop_returns sio st :
  exists st', safe_stop sio st = (Val tt, st') /\ running st' = false.
Proof.
  destruct (running st) eqn:Hr.
  - destruct (safe_stop_running sio st Hr) as (st' & E & H & _); eauto.
  - exists st; split; [apply safe_stop_stopped|]; assumption.
Qed.

Lemma stop_returns sio st :
  exists st', stop sio st = (Val tt, st') /\ running st' = false.
Proof.
  unfold stop.
  unfold bind at 1, gets at 1. unfold bind at 1, gets at 1.
  destruct (negb (running st) && _) eqn:G.
  - exists st; split; [reflexivity|].
    apply andb_prop in G; destruct G as [G _]; destruct (running st); auto; discriminate.
  - destruct (safe_stop_returns sio st) as (st' & E & Hr).
    unfold bind, log, modify; rewrite E. eexists; split; [reflexivity|]; exact Hr.
Qed.

Lemma stop_cases sio st :
  (running st = false /\ server_sock st = None /\ stop sio st = (Val tt, st)) \/
  (exists st', safe_stop sio st = (Val tt, st') /\ running st' = false /\
     stop sio st = (Val tt, emit (EvLog LogStopDone) st')).
Proof.
  unfold stop; cbv [bind gets].
  destruct (running st) eqn:Hr, (server_sock st) eqn:Hs; simpl;
    try (left; repeat split; reflexivity);
    right; destruct (safe_stop_returns sio st) as (st' & E & Hr');
    exists st'; rewrite E; repeat split; assumption.
Qed.

Lemma stop_stopped sio st :
  running st = false ->
  exists st', stop sio st = (Val tt, st') /\ observable st' = observable st.
Proof.
  intros Hr. destruct (stop_cases sio st) as [(_ & _ & E)|(st' & E & _ & E')].
  - exists st; split; [assumption | reflexivity].
  - rewrite (safe_stop_stopped sio st Hr) in E; injection E as <-.
    eexists; split; [eassumption | reflexivity].
Qed.

(** C9: shutting down twice ends in the same observable state as shutting
    down once, and neither call raises: [safe_stop] and [stop] always return
    normally with [running] false; a second [safe_stop] changes nothing and a
    second [stop] leaves the observable state as it was; on a running server
    one call empties [clients] and [truck_sockets] and closes the listening
    socket; [stop] on a server that was never started returns without
    touching it. *)
Theorem shutdown_idempotent (sio sio' : stop_io) (st : state) :
  let once := snd (safe_stop sio st) in
  let full := snd (stop sio st) in
  (fst (safe_stop sio st) = Val tt /\ running once = false /\
   safe_stop sio' once = (Val tt, once))
  /\ (fst (stop sio st) = Val tt /\ running full = false /\
      fst (stop sio' full) = Val tt /\
      observable (snd (stop sio' full)) = observable full)
  /\ (running st = true ->
      (clients once = [] /\ truck_sockets once = [] /\
       forall s, server_sock st = Some s -> In s (closed once))
      /\ (clients full = [] /\ truck_sockets full = [] /\
          forall s, server_sock st = Some s -> In s (closed full)))
  /\ (forall h p, stop sio (init h p) = (Val tt, init h p)).
Proof.
  intros once full; subst once full.
  destruct (safe_stop_returns sio st) as (s1 & E1 & R1).
  repeat split.
  - rewrite E1; reflexivity.
  - rewrite E1; exact R1.
  - rewrite E1; simpl; apply safe_stop_stopped; exact R1.
  - destruct (stop_returns sio st) as (s2 & E2 & _); rewrite E2; reflexivity.
  - destruct (stop_returns sio st) as (s2 & E2 & R2); rewrite E2; exact R2.
  - destruct (stop_returns sio st) as (s2 & E2 & R2); rewrite E2; simpl.
    destruct (stop_stopped sio' s2 R2) as (s3 & E3 & _); rewrite E3; reflexivity.
  - destruct (stop_returns sio st) as (s2 & E2 & R2); rewrite E2; simpl.
    destruct (stop_stopped sio' s2 R2) as (s3 & E3 & O3); rewrite E3; exact O3.
  - destruct (safe_stop_running sio st H) as (s' & E & _ & C & _); rewrite E; exact C.
  - destruct (safe_stop_running sio st H) as (s' & E & _ & _ & T & _); rewrite E; exact T.
  - destruct (safe_stop_running sio st H) as (s' & E & _ & _ & _ & _ & K); rewrite E; exact K.
  - destruct (safe_stop_running sio st H) as (s' & E & _ & C & _).
    destruct (stop_cases sio st) as [(R & _)|(s2 & E2 & _ & E3)]; [congruence|].
    rewrite E3; rewrite E in E2; injection E2 as <-; exact C.
  - destruct (safe_stop_running sio st H) as (s' & E & _ & _ & T & _).
    destruct (stop_cases sio st) as [(R & _)|(s2 & E2 & _ & E3)]; [congruence|].
    rewrite E3; rewrite E in E2; injection E2 as <-; exact T.
  - destruct (safe_stop_running sio st H) as (s' & E & _ & _ & _ & _ & K).
    destruct (stop_cases sio st) as [(R & _)|(s2 & E2 & _ & E3)]; [congruence|].
    rewrite E3; rewrite E in E2; injection E2 as <-; exact K.
Qed.

Lemma shutdown_idempotent_running_server :
  clients (snd (stop Sample.calm Sample.two_accepted)) = []
  /\ truck_sockets (snd (stop Sample.calm Sample.two_accepted)) = []
  /\ In 0 (closed (snd (stop Sample.calm Sample.two_accepted))).
Proof.
  destruct (shutdown_idempotent Sample.calm Sample.calm Sample.two_accepted)
    as (_ & _ & H & _).
  destruct (H eq_refl) as (_ & C & T & K).
  split; [exact C | split; [exact T | apply K; reflexivity]].
Defined.

(** ** The listener *)

Lemma start_after_bind_failure sio st e st' :
  bind_listener sio (set_running true st) = (Raise e, st') ->
  start sio st = (Val tt, snd (stop (io_stop sio) (emit (EvLog LogServerError) st'))).
Proof.
  intros Hb. unfold start.
  cbv [bind modify try_finally try_except any_exception log]; simpl.
  rewrite Hb.
  destruct (stop_returns (io_stop sio) (emit (EvLog LogServerError) st')) as (s2 & E2 & _).
  rewrite E2; reflexivity.
Qed.

(** C8 (as the code has it): when the first [bind] fails with an [OSError]
    whose text contains "Address already in use", the failed socket is
    closed, the server sleeps 5, creates a second socket and binds once more,
    and whatever that second [bind] answers is the answer of the bind phase
    (no further retry); any other failure of the first [bind] is raised by
    the bind phase after a single attempt; and a failure raised by the bind
    phase does not leave [start]: it is logged, [stop] runs, and [start]
    returns normally with [running] false. *)
Theorem bind_retry_policy (sio : start_io) (st : state) (e : exn) :
  io_bind sio = inl e ->
  let s1 := next_sock st in
  let a := (host st, port st) in
  (is_OSError e && contains "Address already in use" (exn_msg e) = true ->
   exists st',
     bind_listener sio st = (outcome_result (io_rebind sio), st') /\
     trace st' = EvBind (S s1) a :: EvSocket (S s1) :: EvSleep 5 :: EvClose s1
                 :: EvLog LogPortInUse :: EvBind s1 a :: EvSocket s1 :: trace st /\
     server_sock st' = Some (S s1) /\ In s1 (closed st'))
  /\ (is_OSError e && contains "Address already in use" (exn_msg e) = false ->
      exists st',
        bind_listener sio st = (Raise e, st') /\
        trace st' = EvBind s1 a :: EvSocket s1 :: trace st)
  /\ (forall e' st',
        bind_listener sio (set_running true st) = (Raise e', st') ->
        start sio st
        = (Val tt, snd (stop (io_stop sio) (emit (EvLog LogServerError) st')))
        /\ running (snd (start sio st)) = false).
Proof.
  intros Hbind s1 a; subst s1 a.
  split; [|split; [|intros e' st' H; split]].
  - intros Hin. apply andb_prop in Hin; destruct Hin as [Hos Hin].
    unfold bind_listener, open_listener, sock_bind; run_monad; simpl.
    rewrite Hbind, Hos, Hin; simpl.
    destruct (io_rebind sio) as [e2|[]]; simpl;
      eexists; (split; [reflexivity|]); simpl; auto.
  - intros Hout.
    unfold bind_listener, open_listener, sock_bind; run_monad; simpl.
    rewrite Hbind.
    destruct (is_OSError e) eqn:Hos; simpl in *.
    + rewrite Hout. eexists; split; reflexivity.
    + eexists; split; reflexivity.
  - eapply start_after_bind_failure; eassumption.
  - rewrite (start_after_bind_failure sio st e' st' H); simpl.
    destruct (stop_returns (io_stop sio) (emit (EvLog LogServerError) st')) as (s2 & E2 & R2).
    rewrite E2; exact R2.
Qed.

Lemma bind_retry_policy_sample :
  let busy := mk_start_io (Sample.fails OSError "[Errno 98] Address already in use")
                Sample.ok Sample.ok [] Sample.calm in
  let denied := mk_start_io (Sample.fails OSError "[Errno 13] Permission denied")
                  Sample.ok Sample.ok [] Sample.calm in
  let st := init "0.0.0.0" 8000 in
  (exists st',
     bind_listener busy st = (Val tt, st') /\
     trace st' = [EvBind 1 ("0.0.0.0"%string, 8000%N); EvSocket 1; EvSleep 5; EvClose 0;
                  EvLog LogPortInUse; EvBind 0 ("0.0.0.0"%string, 8000%N); EvSocket 0;
                  EvSetCommander []] /\
     server_sock st' = Some 1 /\ In 0 (closed st'))
  /\ (exists st',
        bind_listener denied st
        = (Raise (mk_exn OSError "[Errno 13] Permission denied"), st') /\
        trace st' = [EvBind 0 ("0.0.0.0"%string, 8000%N); EvSocket 0;
                     EvSetCommander []])
  /\ fst (start denied st) = Val tt
  /\ running (snd (start denied st)) = false.
Proof.
  intros busy denied st.
  destruct (bind_retry_policy busy st
              (mk_exn OSError "[Errno 98] Address already in use") eq_refl)
    as (Hbusy & _).
  destruct (bind_retry_policy denied st
              (mk_exn OSError "[Errno 13] Permission denied") eq_refl)
    as (_ & Hdenied & Hstart).
  split; [exact (Hbusy eq_refl)|].
  split; [exact (Hdenied eq_refl)|].
  destruct (Hstart (mk_exn OSError "[Errno 13] Permission denied")
              (snd (bind_listener denied (set_running true st))) eq_refl)
    as (E & R).
  split; [rewrite E; reflexivity | exact R].
Defined.

(** C8 as the specification words it fails: a [bind] refused for another
    reason than an address in use does not propagate out of [start], which
    returns normally. *)
Lemma bind_failure_stays_inside_start :
  let sio := mk_start_io (Sample.fails OSError "[Errno 13] Permission denied")
               Sample.ok Sample.ok [] Sample.calm in
  fst (start sio (init "0.0.0.0" 80)) = Val tt /\
  (forall e, fst (start sio (init "0.0.0.0" 80)) <> Raise e) /\
  sends (trace (snd (start sio (init "0.0.0.0" 80)))) = [] /\
  rev (trace (snd (start sio (init "0.0.0.0" 80))))
  = [EvSetCommander []; EvSocket 0; EvBind 0 ("0.0.0.0"%string, 80%N);
     EvLog LogServerError;
     EvLog LogSafeStopBegin; EvShutdown 0; EvClose 0; EvLog LogServerSocketClosed;
     EvLog LogSafeStopDone; EvLog LogStopDone].
Proof.
  cbv zeta. repeat split; try reflexivity.
  intros e; vm_compute; discriminate.
Qed.

(** ** Dictionaries with string keys *)

Lemma dict_get_set_same (k : string) (v : sock) (d : dict string sock) :
  dict_get k (dict_set k v d) = Some v.
Proof.
  induction d as [|[k' v'] d IH]; simpl; unfold keq, string_KeyEq.
  - rewrite String.eqb_refl; reflexivity.
  - destruct (String.eqb k k') eqn:E; simpl; unfold keq, string_KeyEq; rewrite E;
      [reflexivity | exact IH].
Qed.

Lemma dict_set_in (k : string) (v : sock) (d : dict string sock) :
  In (k, v) (dict_set k v d).
Proof.
  induction d as [|[k' v'] d IH]; simpl; unfold keq, string_KeyEq.
  - left; reflexivity.
  - destruct (String.eqb k k') eqn:E; simpl.
    + apply String.eqb_eq in E; subst; left; reflexivity.
    + right; exact IH.
Qed.

Lemma dict_set_keys_present (k : string) (v : sock) (d : dict string sock) :
  dict_mem k d = true -> dict_keys (dict_set k v d) = dict_keys d.
Proof.
  unfold dict_mem, dict_keys.
  induction d as [|[k' v'] d IH]; simpl; unfold keq, string_KeyEq; [discriminate|].
  destruct (String.eqb k k') eqn:E; simpl; intros Hm; [reflexivity|].
  f_equal; apply IH; exact Hm.
Qed.

Lemma dict_get_in (k : string) (v : sock) (d : dict string sock) :
  NoDup (dict_keys d) -> In (k, v) d -> dict_get k d = Some v.
Proof.
  unfold dict_keys.
  induction d as [|[k' v'] d IH]; simpl; unfold keq, string_KeyEq; [tauto|].
  intros Hnd [Heq|Hin]; inversion Hnd as [|? ? Hnotin Hnd']; subst.
  - injection Heq as -> ->. rewrite String.eqb_refl; reflexivity.
  - destruct (String.eqb k k') eqn:E.
    + apply String.eqb_eq in E; subst k'.
      exfalso; apply Hnotin. change k with (fst (k, v)); apply in_map; exact Hin.
    + apply IH; assumption.
Qed.

(** ** Stepping through the monad *)

Lemma bind_val {S A B} (m : M S A) (k : A -> M S B) s a s' :
  m s = (Val a, s') -> bind m k s = k a s'.
Proof. intros E; unfold bind; rewrite E; reflexivity. Qed.

Lemma bind_raise {S A B} (m : M S A) (k : A -> M S B) s e s' :
  m s = (Raise e, s') -> bind m k s = (Raise e, s').
Proof. intros E; unfold bind; rewrite E; reflexivity. Qed.

Ltac run_handler :=
  cbv [bind ret raise blocked gets modify call try_except try_finally
       any_exception log sock_send sock_recv sock_shutdown sock_close
       set_truck_commander app_handle_message lift set_last run_local].

Lemma untouched_refl st : untouched st st.
Proof. unfold untouched; auto. Qed.

Lemma untouched_trans st1 st2 st3 :
  untouched st1 st2 -> untouched st2 st3 -> untouched st1 st3.
Proof.
  unfold untouched; intros (A & B & C & D) (A' & B' & C' & D');
    repeat split; congruence.
Qed.

(** ** One pass of the handler *)

Lemma activity_check_frame c io h r h0 :
  activity_check c io h = (r, h0) ->
  (exists b, r = Val b) /\ untouched (srv h) (srv h0).
Proof.
  unfold activity_check; run_handler.
  destruct (io_now io - _ >? 300)%Z; [destruct (io_probe io) as [e|[]]|];
    simpl; intros [= <- <-]; split; eauto; unfold untouched; simpl; auto.
Qed.

Lemma read_frame_short_header c io h0 hd :
  io_header io = inr hd -> 0 < List.length hd < 4 ->
  read_frame c io h0
  = (Val (Jump Continue),
     mk_hstate (emit (EvLog LogIncompleteHeader) (srv h0)) (last_activity_time h0)).
Proof.
  intros Hh [Hlo Hhi]. unfold read_frame; run_handler. rewrite Hh.
  rewrite (firstn_all2 (n := 4) hd) by lia.
  destruct (Nat.eqb_spec (List.length hd) 0) as [E|_]; [lia|].
  destruct (Nat.ltb_spec (List.length hd) 4) as [_|E]; [reflexivity | lia].
Qed.

Lemma payload_len_firstn hd :
  payload_len (firstn 4 hd) = payload_len hd.
Proof. unfold payload_len; rewrite nth_firstn; reflexivity. Qed.

Lemma read_frame_short_payload c io h0 hd pd :
  io_header io = inr hd -> 4 <= List.length hd ->
  io_payload io = inr pd -> List.length pd < payload_len hd ->
  read_frame c io h0
  = (Val (Jump Continue),
     mk_hstate (emit (EvLog LogIncompletePayload) (srv h0)) (io_now io)).
Proof.
  intros Hh Hlen Hp Hshort. unfold read_frame; run_handler. rewrite Hh, Hp.
  rewrite payload_len_firstn, !length_firstn.
  replace (Nat.min 4 (List.length hd)) with 4 by lia.
  replace (Nat.min (payload_len hd) (List.length pd)) with (List.length pd) by lia.
  simpl.
  destruct (Nat.ltb_spec 0 (payload_len hd)) as [_|E]; [|lia].
  destruct (Nat.ltb_spec (List.length pd) (payload_len hd)) as [_|E]; [reflexivity | lia].
Qed.

Lemma iteration_jump P c io h h0 h1 j :
  reaches_read c io h h0 ->
  read_frame c io h0 = (Val (Jump j), h1) ->
  iteration P c io h = (Val j, h1).
Proof.
  unfold reaches_read; intros Ha Hr.
  unfold iteration, try_except, iteration_body.
  rewrite (bind_val _ _ _ _ _ Ha); cbv iota.
  rewrite (bind_val _ _ _ _ _ Hr); reflexivity.
Qed.

(** C1 (as the code has it): a short read does not end the connection.
    When [recv(4)] returns between one and three bytes, or the payload
    [recv] returns fewer bytes than the header announces, all the pass does
    after the read is log the incomplete read and [continue]: the
    dictionaries, the set of closed sockets and the consumer are untouched,
    and the loop goes on with the next [recv]. *)
Theorem short_read_continues (P : codec) (c : conn) (io : iter_io) (h h0 : hstate) :
  reaches_read c io h h0 ->
  short_read io ->
  exists h',
    iteration P c io h = (Val Continue, h') /\
    (trace (srv h') = EvLog LogIncompleteHeader :: trace (srv h0) \/
     trace (srv h') = EvLog LogIncompletePayload :: trace (srv h0)) /\
    untouched (srv h) (srv h') /\
    forall rest, client_loop P c (io :: rest) h = client_loop P c rest h'.
Proof.
  intros Ha Hs.
  destruct (activity_check_frame _ _ _ _ _ Ha) as (_ & U).
  assert (exists h', read_frame c io h0 = (Val (Jump Continue), h') /\
                     untouched (srv h0) (srv h') /\
                     (trace (srv h') = EvLog LogIncompleteHeader :: trace (srv h0) \/
                      trace (srv h') = EvLog LogIncompletePayload :: trace (srv h0)))
    as (h' & Hr & U' & Hlog).
  { destruct Hs as [hd Hh Hlen | hd pd Hh Hlen Hp Hshort].
    - rewrite (read_frame_short_header c io h0 hd Hh Hlen).
      eexists; split; [reflexivity|]; split; [unfold untouched; simpl; auto|].
      left; reflexivity.
    - rewrite (read_frame_short_payload c io h0 hd pd Hh Hlen Hp Hshort).
      eexists; split; [reflexivity|]; split; [unfold untouched; simpl; auto|].
      right; reflexivity. }
  pose proof (iteration_jump P c io h h0 h' Continue Ha Hr) as Hi.
  exists h'; split; [exact Hi|]; split; [exact Hlog|].
  split; [eapply untouched_trans; eassumption|].
  intros rest; simpl. rewrite (bind_val _ _ _ _ _ Hi); reflexivity.
Qed.

Lemma short_read_continues_sample :
  let h := mk_hstate Sample.two_accepted 0 in
  let part_of_header := Sample.delivers 10 [x01; x00] [] in
  let part_of_payload := Sample.delivers 10 [x01; x00; x02; x0a] [x00; x00; x00; x00] in
  (exists h',
     iteration Sample.proto Sample.truck_a part_of_header h = (Val Continue, h') /\
     untouched (srv h) (srv h') /\
     forall rest,
       client_loop Sample.proto Sample.truck_a (part_of_header :: rest) h
       = client_loop Sample.proto Sample.truck_a rest h')
  /\ (exists h',
        iteration Sample.proto Sample.truck_a part_of_payload h = (Val Continue, h') /\
        untouched (srv h) (srv h') /\
        forall rest,
          client_loop Sample.proto Sample.truck_a (part_of_payload :: rest) h
          = client_loop Sample.proto Sample.truck_a rest h').
Proof.
  intros h part_of_header part_of_payload; split.
  - destruct (short_read_continues Sample.proto Sample.truck_a part_of_header h h)
      as (h' & E & _ & U & L).
    + reflexivity.
    + apply short_header with (hd := [x01; x00]); [reflexivity | simpl; lia].
    + exists h'; split; [exact E|]; split; [exact U | exact L].
  - destruct (short_read_continues Sample.proto Sample.truck_a part_of_payload h h)
      as (h' & E & _ & U & L).
    + reflexivity.
    + apply short_payload with (hd := [x01; x00; x02; x0a]) (pd := [x00; x00; x00; x00]);
        [reflexivity | simpl; lia | reflexivity | vm_compute; lia].
    + exists h'; split; [exact E|]; split; [exact U | exact L].
Defined.

(** C1 as the specification words it fails: after two bytes of a header the
    pass ends with [continue], not [break]; so does a pass whose header
    announces ten payload bytes of which four arrive; and a handler that met
    a short header goes on to read and answer the next frame, its socket
    still open. *)
Lemma short_read_is_not_fatal :
  let h := mk_hstate Sample.two_accepted 0 in
  let part_of_header := Sample.delivers 10 [x01; x00] [] in
  let part_of_payload := Sample.delivers 10 [x01; x00; x02; x0a] [x00; x00; x00; x00] in
  let hello := Sample.delivers 11 [x01; x00; x01; x00] [] in
  let run := handle_client Sample.proto Sample.truck_a
               (Sample.quiet [part_of_header; hello]) Sample.two_accepted in
  fst (iteration Sample.proto Sample.truck_a part_of_header h) = Val Continue
  /\ fst (iteration Sample.proto Sample.truck_a part_of_payload h) = Val Continue
  /\ fst run = Blocked
  /\ closed (snd run) = []
  /\ sends (trace (snd run)) = [(1, [x7f; x01; x10; x00], true)].
Proof. cbv zeta; repeat split; reflexivity. Qed.

Lemma read_frame_frame c io h0 r h1 :
  read_frame c io h0 = (r, h1) -> untouched (srv h0) (srv h1).
Proof.
  unfold read_frame; run_handler.
  destruct (io_header io) as [e|hd]; cbv beta iota.
  - intros [= <- <-]; apply untouched_refl.
  - destruct (List.length (firstn 4 hd) =? 0); cbv beta iota;
      [intros [= <- <-]; unfold untouched; simpl; auto|].
    destruct (List.length (firstn 4 hd) <? 4); cbv beta iota;
      [intros [= <- <-]; unfold untouched; simpl; auto|].
    destruct (0 <? payload_len (firstn 4 hd)); cbv beta iota;
      [|intros [= <- <-]; unfold untouched; simpl; auto].
    destruct (io_payload io) as [e|pd]; cbv beta iota;
      [intros [= <- <-]; unfold untouched; simpl; auto|].
    destruct (List.length (firstn _ pd) <? _); cbv beta iota;
      intros [= <- <-]; unfold untouched; simpl; auto.
Qed.

Lemma decode_frame P raw h r h' :
  decode P raw h = (r, h') ->
  untouched (srv h) (srv h') /\
  sends (trace (srv h')) = sends (trace (srv h)) /\
  last_activity_time h' = last_activity_time h.
Proof.
  unfold decode; run_handler.
  destruct (parse_message P raw) as [e|m]; simpl;
    [|destruct (opt_str_eqb (msg_type m) "INVALID")]; simpl;
    intros [= <- <-]; unfold untouched; simpl; auto.
Qed.

Lemma receives_frame P c io h m h1 :
  receives P c io h m h1 -> untouched (srv h) (srv h1).
Proof.
  intros (h0 & hr & raw & Ha & Hr & Hd).
  destruct (activity_check_frame _ _ _ _ _ Ha) as (_ & U1).
  pose proof (read_frame_frame _ _ _ _ _ Hr) as U2.
  destruct (decode_frame _ _ _ _ _ Hd) as (U3 & _).
  eapply untouched_trans; [exact U1|].
  eapply untouched_trans; [exact U2|].
  eapply untouched_trans; [|exact U3].
  unfold untouched; simpl; auto.
Qed.

Lemma register_spec c io m h :
  exists h',
    register c io m h = (Val tt, h') /\
    truck_sockets (srv h') = promoted c m (truck_sockets (srv h)) /\
    clients (srv h') = clients (srv h) /\
    closed (srv h') = closed (srv h) /\
    consumer_calls (trace (srv h')) = consumer_calls (trace (srv h)) /\
    sends (trace (srv h')) = sends (trace (srv h)) /\
    last_activity_time h' = last_activity_time h.
Proof.
  unfold register, promoted.
  destruct (msg_sender m) as [tid|];
    [destruct (truthy (Some tid))|]; run_handler;
    [|destruct h; eexists; repeat split..].
  destruct (dict_mem tid (truck_sockets (srv h)));
    [|destruct (dict_mem (temp_truck_id c) (truck_sockets (srv h)))];
    destruct (io_commander io) as [e|[]]; simpl;
    eexists; repeat split.
Qed.

Lemma dispatch_returns P c io m h :
  exists h', dispatch P c io m h = (Val Continue, h') /\
    truck_sockets (srv h') = truck_sockets (srv h) /\
    clients (srv h') = clients (srv h) /\
    closed (srv h') = closed (srv h).
Proof.
  unfold dispatch; run_handler.
  destruct (opt_str_eqb (msg_cmd m) "HELLO");
    [destruct (build_message P _ _ _ _) as [e|resp];
     [|destruct (io_ack io) as [e|[]]]
    |destruct (io_consumer io) as [e|[]]];
    simpl; eexists; repeat split.
Qed.

Lemma iteration_received P c io h m h1 :
  receives P c io h m h1 ->
  iteration P c io h = bind (register c io m) (fun _ => dispatch P c io m) h1.
Proof.
  intros (h0 & hr & raw & Ha & Hr & Hd). unfold reaches_read in Ha.
  unfold iteration, try_except, iteration_body.
  rewrite (bind_val _ _ _ _ _ Ha); cbv iota.
  rewrite (bind_val _ _ _ _ _ Hr); cbv iota.
  rewrite (bind_val (lift (log LogRawData)) _ hr tt (snd (lift (log LogRawData) hr)))
    by reflexivity.
  rewrite (bind_val _ _ _ _ _ Hd); cbv iota.
  destruct (register_spec c io m h1) as (h2 & E2 & _).
  destruct (dispatch_returns P c io m h2) as (h3 & E3 & _).
  rewrite (bind_val _ _ _ _ _ E2), E3; reflexivity.
Qed.

(** C7: a decoded message whose command is HELLO is answered on the spot
    and kept from the consumer.  The pass ends with [continue] without a call
    to [handle_message], and whenever the codec encodes the reply, the only
    write of the pass after decoding is that reply, HEARTBEAT_ACK from SERVER
    addressed to the message's sender, on this connection's socket. *)
Theorem hello_answered_not_forwarded (P : codec) (c : conn) (io : iter_io)
    (h : hstate) (m : message) (h1 : hstate) :
  receives P c io h m h1 ->
  msg_cmd m = Some "HELLO"%string ->
  exists h2,
    iteration P c io h = (Val Continue, h2) /\
    consumer_calls (trace (srv h2)) = consumer_calls (trace (srv h)) /\
    forall resp,
      build_message P "SERVER" (option_map KStr (msg_sender m)) "HEARTBEAT_ACK" []
      = inr resp ->
      sends (trace (srv h2))
      = (client_sock c, resp, match io_ack io with inr _ => true | inl _ => false end)
          :: sends (trace (srv h1)).
Proof.
  intros Hrec Hcmd.
  rewrite (iteration_received P c io h m h1 Hrec).
  destruct (receives_frame P c io h m h1 Hrec) as (_ & _ & _ & Hcalls).
  destruct (register_spec c io m h1) as (h' & E & _ & _ & _ & Hc' & Hs' & _).
  rewrite (bind_val _ _ _ _ _ E).
  unfold dispatch; rewrite Hcmd; simpl opt_str_eqb; cbv iota; run_handler.
  destruct (build_message P _ _ _ _) as [e|resp0];
    [|destruct (io_ack io) as [e|[]]]; cbv beta iota;
    eexists; (split; [reflexivity|]); simpl;
    (split; [congruence|]); intros resp [= <-]; congruence.
Qed.

Lemma hello_answered_not_forwarded_sample :
  let h := mk_hstate Sample.first_identified 10 in
  let io := Sample.delivers 11 [x01; x00; x01; x00] [] in
  exists h2,
    iteration Sample.proto Sample.truck_a io h = (Val Continue, h2) /\
    consumer_calls (trace (srv h2)) = consumer_calls (trace (srv h)) /\
    sends (trace (srv h2)) = [(1, [x7f; x01; x10; x00], true)].
Proof.
  intros h io.
  set (m := mk_message None (Some "TRUCK_1"%string) (Some "HELLO"%string) []).
  set (hr := snd (read_frame Sample.truck_a io h)).
  set (h1 := snd (decode Sample.proto [x01; x00; x01; x00] (snd (lift (log LogRawData) hr)))).
  assert (Hrec : receives Sample.proto Sample.truck_a io h m h1).
  { exists h, hr, [x01; x00; x01; x00]; repeat split; reflexivity. }
  destruct (hello_answered_not_forwarded Sample.proto Sample.truck_a io h m h1 Hrec eq_refl)
    as (h2 & E & C & S).
  exists h2; split; [exact E|]; split; [exact C|].
  exact (S [x7f; x01; x10; x00] eq_refl).
Defined.

Lemma promoted_registered c m reg :
  registered (client_sock c) reg -> registered (client_sock c) (promoted c m reg).
Proof.
  intros Hreg; unfold promoted.
  destruct (msg_sender m) as [tid|]; [|exact Hreg].
  destruct (truthy (Some tid)); [|exact Hreg].
  exists tid; apply dict_set_in.
Qed.

(** C10: a failed HEARTBEAT_ACK write stays inside the handler.  When a
    HELLO was decoded and the [sendall] of the reply raises, the error is
    logged, the pass ends with [continue] and the loop reads on; the socket
    is not closed, [clients] is unchanged and the socket is still
    registered. *)
Theorem failed_ack_keeps_connection (P : codec) (c : conn) (io : iter_io)
    (h : hstate) (m : message) (h1 : hstate) (e : exn) :
  receives P c io h m h1 ->
  msg_cmd m = Some "HELLO"%string ->
  io_ack io = inl e ->
  exists h2,
    iteration P c io h = (Val Continue, h2) /\
    hd_error (trace (srv h2)) = Some (EvLog LogHeartbeatAckError) /\
    closed (srv h2) = closed (srv h) /\
    clients (srv h2) = clients (srv h) /\
    truck_sockets (srv h2) = promoted c m (truck_sockets (srv h)) /\
    (registered (client_sock c) (truck_sockets (srv h)) ->
     registered (client_sock c) (truck_sockets (srv h2))) /\
    forall rest, client_loop P c (io :: rest) h = client_loop P c rest h2.
Proof.
  intros Hrec Hcmd Hack.
  pose proof (iteration_received P c io h m h1 Hrec) as Hit.
  destruct (receives_frame P c io h m h1 Hrec) as (Hreg & Hcl & Hclosed & _).
  destruct (register_spec c io m h1) as (h' & E & Hr' & Hcl' & Hclosed' & _).
  rewrite (bind_val _ _ _ _ _ E) in Hit.
  assert (exists h2, dispatch P c io m h' = (Val Continue, h2) /\
            hd_error (trace (srv h2)) = Some (EvLog LogHeartbeatAckError) /\
            closed (srv h2) = closed (srv h') /\ clients (srv h2) = clients (srv h') /\
            truck_sockets (srv h2) = truck_sockets (srv h'))
    as (h2 & E2 & Hlog & Hclosed2 & Hcl2 & Hr2).
  { unfold dispatch; rewrite Hcmd; simpl opt_str_eqb; cbv iota; run_handler.
    rewrite Hack.
    destruct (build_message P _ _ _ _) as [e0|resp]; cbv beta iota;
      eexists; (split; [reflexivity|]); simpl; auto. }
  rewrite E2 in Hit.
  assert (Hfinal : truck_sockets (srv h2) = promoted c m (truck_sockets (srv h)))
    by congruence.
  exists h2; split; [exact Hit|]; split; [exact Hlog|].
  split; [congruence|]; split; [congruence|]; split; [exact Hfinal|].
  split.
  - intros R; rewrite Hfinal; apply promoted_registered; exact R.
  - intros rest; simpl. rewrite (bind_val _ _ _ _ _ Hit); reflexivity.
Qed.

Lemma failed_ack_keeps_connection_sample :
  let h := mk_hstate Sample.first_identified 10 in
  let io := mk_iter_io 11 Sample.ok (inr [x01; x00; x01; x00]) (inr []) Sample.ok
              (Sample.fails ConnectionResetError "[Errno 104] Connection reset by peer")
              Sample.ok Sample.ok 11 in
  exists h2,
    iteration Sample.proto Sample.truck_a io h = (Val Continue, h2) /\
    hd_error (trace (srv h2)) = Some (EvLog LogHeartbeatAckError) /\
    closed (srv h2) = [] /\
    truck_sockets (srv h2) = [("TRUCK_1"%string, 1)].
Proof.
  intros h io.
  set (m := mk_message None (Some "TRUCK_1"%string) (Some "HELLO"%string) []).
  set (hr := snd (read_frame Sample.truck_a io h)).
  set (h1 := snd (decode Sample.proto [x01; x00; x01; x00] (snd (lift (log LogRawData) hr)))).
  assert (Hrec : receives Sample.proto Sample.truck_a io h m h1).
  { exists h, hr, [x01; x00; x01; x00]; repeat split; reflexivity. }
  destruct (failed_ack_keeps_connection Sample.proto Sample.truck_a io h m h1
              (mk_exn ConnectionResetError "[Errno 104] Connection reset by peer")
              Hrec eq_refl eq_refl)
    as (h2 & E & L & C & _ & R & _).
  exists h2; split; [exact E|]; split; [exact L|]; split; [exact C | exact R].
Defined.

(** ** The registry *)

Lemma truthy_nonempty tid : tid <> ""%string -> truthy (Some tid) = true.
Proof. destruct tid; [congruence | reflexivity]. Qed.

Lemma promoted_known c m reg tid :
  msg_sender m = Some tid -> tid <> ""%string -> dict_mem tid reg = true ->
  promoted c m reg = dict_set tid (client_sock c) reg.
Proof.
  intros Hs Hne Hm; unfold promoted.
  rewrite Hs, (truthy_nonempty tid Hne), Hm; reflexivity.
Qed.

(** C3 (as the code has it): when a connection identifies under an
    identifier that already maps to another socket, the entry is overwritten
    in place: the identifier now resolves to the new socket and to no other,
    the registry still has each key once, and nothing is closed by the pass,
    so the superseded socket stays as open as it was. *)
Theorem reidentification_overwrites (P : codec) (c : conn) (io : iter_io)
    (h : hstate) (m : message) (h1 : hstate) (tid : string) (other : sock) :
  receives P c io h m h1 ->
  msg_sender m = Some tid ->
  tid <> ""%string ->
  NoDup (dict_keys (truck_sockets (srv h))) ->
  dict_get tid (truck_sockets (srv h)) = Some other ->
  other <> client_sock c ->
  exists h2,
    iteration P c io h = (Val Continue, h2) /\
    truck_sockets (srv h2) = dict_set tid (client_sock c) (truck_sockets (srv h)) /\
    dict_get tid (truck_sockets (srv h2)) = Some (client_sock c) /\
    (forall s, In (tid, s) (truck_sockets (srv h2)) -> s = client_sock c) /\
    ~ In (tid, other) (truck_sockets (srv h2)) /\
    NoDup (dict_keys (truck_sockets (srv h2))) /\
    closed (srv h2) = closed (srv h).
Proof.
  intros Hrec Hs Hne Hnd Hget Hother.
  pose proof (iteration_received P c io h m h1 Hrec) as Hit.
  destruct (receives_frame P c io h m h1 Hrec) as (Hreg & _ & Hclosed & _).
  destruct (register_spec c io m h1) as (h' & E & Hr' & _ & Hclosed' & _).
  destruct (dispatch_returns P c io m h') as (h2 & E2 & Hr2 & _ & Hclosed2).
  rewrite (bind_val _ _ _ _ _ E), E2 in Hit.
  assert (Hmem : dict_mem tid (truck_sockets (srv h)) = true)
    by (unfold dict_mem; rewrite Hget; reflexivity).
  assert (Hfinal : truck_sockets (srv h2)
                   = dict_set tid (client_sock c) (truck_sockets (srv h))).
  { rewrite Hr2, Hr', Hreg. apply promoted_known; assumption. }
  assert (Hnd2 : NoDup (dict_keys (truck_sockets (srv h2))))
    by (rewrite Hfinal, dict_set_keys_present; assumption).
  assert (Hget2 : dict_get tid (truck_sockets (srv h2)) = Some (client_sock c))
    by (rewrite Hfinal; apply dict_get_set_same).
  assert (Honly : forall s, In (tid, s) (truck_sockets (srv h2)) -> s = client_sock c).
  { intros s Hin. pose proof (dict_get_in tid s _ Hnd2 Hin) as G. congruence. }
  exists h2; split; [exact Hit|]; split; [exact Hfinal|]; split; [exact Hget2|].
  split; [exact Honly|]. split; [intros Hin; apply Hother, Honly, Hin|].
  split; [exact Hnd2 | congruence].
Qed.

Lemma reidentification_overwrites_sample :
  let h := mk_hstate
             (snd (handler_setup Sample.truck_b (Sample.quiet []) Sample.first_identified))
             0 in
  let io := Sample.delivers 20 [x01; x00; x02; x00] [] in
  exists h2,
    iteration Sample.proto Sample.truck_b io h = (Val Continue, h2) /\
    dict_get "TRUCK_1"%string (truck_sockets (srv h2)) = Some 2 /\
    ~ In ("TRUCK_1"%string, 1) (truck_sockets (srv h2)) /\
    closed (srv h2) = [].
Proof.
  intros h io.
  set (m := mk_message None (Some "TRUCK_1"%string) (Some "STATUS"%string) []).
  set (hr := snd (read_frame Sample.truck_b io h)).
  set (h1 := snd (decode Sample.proto [x01; x00; x02; x00] (snd (lift (log LogRawData) hr)))).
  assert (Hrec : receives Sample.proto Sample.truck_b io h m h1).
  { exists h, hr, [x01; x00; x02; x00]; repeat split; reflexivity. }
  assert (Hnd : NoDup (dict_keys (truck_sockets (srv h)))).
  { simpl. repeat constructor; simpl; intuition discriminate. }
  destruct (reidentification_overwrites Sample.proto Sample.truck_b io h m h1
              "TRUCK_1"%string 1 Hrec eq_refl ltac:(discriminate) Hnd eq_refl
              ltac:(discriminate))
    as (h2 & E & _ & G & _ & N & _ & C).
  exists h2; split; [exact E|]; split; [exact G|]; split; [exact N | exact C].
Defined.

(** C3 as the specification words it fails: once the second connection has
    identified as TRUCK_1 the first socket is still open, and
    [send_message("TRUCK_1", ...)] returns [False] without writing to either
    socket. *)
Lemma superseded_socket_stays_open :
  let st := Sample.second_identified in
  let sent := send_message Sample.proto (KStr "TRUCK_1") "RUN" None Sample.ok st in
  dict_get "TRUCK_1"%string (truck_sockets st) = Some 2
  /\ ~ In 1 (closed st)
  /\ fst sent = Val false
  /\ sends (trace (snd sent)) = sends (trace st).
Proof.
  cbv zeta; split; [reflexivity|]; split; [|split; reflexivity].
  simpl; tauto.
Qed.

(** C2 at its failing input: the first connection's identification removed
    its temporary key, but after the second connection identified under the
    same identifier its temporary key TEMP_5001 and the key TRUCK_1 both map
    to its socket. *)
Theorem temporary_entry_survives_reidentification :
  truck_sockets Sample.first_identified = [("TRUCK_1"%string, 1)]
  /\ truck_sockets Sample.second_identified
     = [("TRUCK_1"%string, 2); ("TEMP_5001"%string, 2)]
  /\ dict_get (temp_truck_id Sample.truck_b) (truck_sockets Sample.second_identified)
     = Some (client_sock Sample.truck_b)
  /\ dict_get "TRUCK_1"%string (truck_sockets Sample.second_identified)
     = Some (client_sock Sample.truck_b).
Proof. repeat split; reflexivity. Qed.

(** ** Outbound messages *)

(** X20: for an identifier that is not a key of [clients],
    [send_message] returns [False] without raising; it writes to no socket
    and leaves the dictionaries, the closed sockets and the consumer as they
    were. *)
Lemma send_message_unknown_client P client_id cmd pl outcome st :
  dict_get client_id (clients st) = None ->
  fst (send_message P client_id cmd pl outcome st) = Val false /\
  untouched st (snd (send_message P client_id cmd pl outcome st)) /\
  sends (trace (snd (send_message P client_id cmd pl outcome st))) = sends (trace st).
Proof.
  intros Hnone; unfold send_message; run_monad.
  destruct (negb (String.eqb cmd "HEARTBEAT_ACK")); cbv beta iota;
    change (clients (emit _ st)) with (clients st); rewrite Hnone;
    unfold untouched; simpl; repeat split; reflexivity.
Qed.

(** C4 at its failing input: TRUCK_1 is in the registry, yet
    [send_message("TRUCK_1", ...)] reports failure and writes nothing,
    because the lookup goes to [clients], which is keyed by address; and with
    the address as identifier the stored plain socket is subscripted, which
    raises [TypeError] before anything is encoded or written. *)
Theorem send_message_misses_registered_truck :
  let st := Sample.first_identified in
  let by_name := send_message Sample.proto (KStr "TRUCK_1") "RUN" None Sample.ok st in
  let by_addr := send_message Sample.proto (KAddr (client_addr Sample.truck_a)) "RUN"
                   None Sample.ok st in
  dict_get "TRUCK_1"%string (truck_sockets st) = Some 1
  /\ ~ In 1 (closed st)
  /\ fst by_name = Val false
  /\ sends (trace (snd by_name)) = sends (trace st)
  /\ fst by_addr = Raise (mk_exn TypeError "'socket' object is not subscriptable")
  /\ sends (trace (snd by_addr)) = sends (trace st).
Proof.
  cbv zeta; split; [reflexivity|]; split; [simpl; tauto|].
  repeat split; reflexivity.
Qed.

(** C5 at its failing input: when the write fails, the failure is logged and
    then the call of the undefined [_close_client] raises [AttributeError]
    to the caller; the socket is not closed and stays registered. *)
Theorem send_failure_reaches_caller :
  let sent := send_message Sample.proto (KStr "TRUCK_1") "RUN" None (inl Sample.reset)
                Sample.with_record in
  fst sent
  = Raise (mk_exn AttributeError "'TCPServer' object has no attribute '_close_client'")
  /\ hd_error (trace (snd sent)) = Some (EvLog LogSendError)
  /\ ~ In 1 (closed (snd sent))
  /\ dict_get "TRUCK_1"%string (truck_sockets (snd sent)) = Some 1.
Proof.
  cbv zeta; split; [reflexivity|]; split; [reflexivity|]; split; [|reflexivity].
  simpl; tauto.
Qed.

(** ** Idle timeout *)

Lemma registered_truck_id_some cs reg tid :
  registered_truck_id cs reg = Some tid ->
  In (tid, cs) reg /\ is_temp tid = false.
Proof.
  induction reg as [|[k s] reg IH]; cbn [registered_truck_id]; [discriminate|].
  destruct (Nat.eqb s cs && negb (String.prefix "TEMP_" k)) eqn:E.
  - intros [= <-]. apply andb_prop in E; destruct E as [E1 E2].
    apply Nat.eqb_eq in E1; subst s. split; [left; reflexivity|].
    unfold is_temp; destruct (String.prefix "TEMP_" k); [discriminate | reflexivity].
  - intros Hr; destruct (IH Hr) as [Hin Ht]; split; [right|]; assumption.
Qed.

Lemma registered_truck_id_identified cs reg :
  identified cs reg -> exists tid, registered_truck_id cs reg = Some tid.
Proof.
  intros (tid & Hin & Ht).
  induction reg as [|[k s] reg IH]; cbn [registered_truck_id In] in *; [tauto|].
  destruct (Nat.eqb s cs && negb (String.prefix "TEMP_" k)) eqn:E; [eauto|].
  destruct Hin as [Heq|Hin]; [|auto].
  injection Heq as -> ->. unfold is_temp in Ht.
  rewrite Ht, Nat.eqb_refl in E; discriminate.
Qed.

Lemma registered_truck_id_anonymous cs reg :
  anonymous cs reg -> registered_truck_id cs reg = None.
Proof.
  intros A. destruct (registered_truck_id cs reg) as [tid|] eqn:E; [|reflexivity].
  destruct (registered_truck_id_some _ _ _ E) as [Hin Ht].
  rewrite (A _ Hin) in Ht; discriminate.
Qed.

Lemma iteration_timeout P c io h h1 :
  read_times_out c io h h1 -> iteration P c io h = on_timeout P c io h1.
Proof.
  intros (h0 & e & Ha & Hr & Hcls). unfold reaches_read in Ha.
  unfold iteration, try_except, iteration_body.
  rewrite (bind_val _ _ _ _ _ Ha); cbv iota.
  rewrite (bind_raise _ _ _ _ _ Hr).
  unfold any_exception; rewrite Hcls; reflexivity.
Qed.

Lemma on_timeout_probe P c io h1 tid probe :
  registered_truck_id (client_sock c) (truck_sockets (srv h1)) = Some tid ->
  tid <> ""%string ->
  build_message P "SERVER" (Some (KStr tid)) "HEARTBEAT_CHECK" [] = inr probe ->
  on_timeout P c io h1
  = match io_check io with
    | inr _ =>
        (Val Continue,
         mk_hstate
           (emit (EvLog LogHeartbeatCheckSent)
              (emit (EvSend (client_sock c) probe true)
                 (emit (EvLog LogSocketTimeout) (srv h1))))
           (io_now_after_check io))
    | inl _ =>
        (Val Break,
         mk_hstate
           (emit (EvLog LogHeartbeatCheckFailed)
              (emit (EvSend (client_sock c) probe false)
                 (emit (EvLog LogSocketTimeout) (srv h1))))
           (last_activity_time h1))
    end.
Proof.
  intros Hreg Hne Hb. unfold on_timeout; run_handler.
  cbn [srv truck_sockets emit last_activity_time].
  rewrite Hreg, (truthy_nonempty tid Hne). cbn [option_map]. rewrite Hb.
  destruct (io_check io) as [e|[]]; reflexivity.
Qed.

Lemma on_timeout_anonymous P c io h1 :
  registered_truck_id (client_sock c) (truck_sockets (srv h1)) = None ->
  on_timeout P c io h1
  = (Val Break,
     mk_hstate
       (emit (EvLog LogUnregisteredTimeout) (emit (EvLog LogSocketTimeout) (srv h1)))
       (last_activity_time h1)).
Proof.
  intros Hreg. unfold on_timeout; run_handler.
  cbn [srv truck_sockets emit last_activity_time].
  rewrite Hreg; reflexivity.
Qed.

Lemma cleanup_closes c cio st :
  exists st', cleanup c cio st = (Val tt, st') /\ In (client_sock c) (closed st').
Proof.
  unfold cleanup.
  destruct (io_close cio) as [e|[]]; run_monad.
  - eexists; split; [reflexivity | simpl; auto].
  - match goal with
    | |- context [for_each ?xs ?body ?s0] =>
        destruct (for_each_inv (fun x => In (client_sock c) (closed x)) body xs)
          with (s := s0) as (s1 & E1 & I1)
    end.
    { intros [k v] s I; cbv beta; cbn [fst snd].
      destruct (Nat.eqb v (client_sock c)); eexists; split;
        try reflexivity; simpl; assumption. }
    { simpl; auto. }
    rewrite E1.
    destruct (dict_mem (KAddr (client_addr c)) (clients s1));
      destruct (io_commander_final cio) as [e|[]];
      eexists; split; try reflexivity; simpl; assumption.
Qed.

Lemma serve_break P c cio io rest h h' :
  iteration P c io h = (Val Break, h') ->
  exists st',
    serve P c cio (last_activity_time h) (io :: rest) (srv h) = (Val tt, st') /\
    In (client_sock c) (closed st').
Proof.
  intros Hi. unfold serve, try_finally, run_local.
  replace (mk_hstate (srv h) (last_activity_time h)) with h by (destruct h; reflexivity).
  cbn [client_loop]. rewrite (bind_val _ _ _ _ _ Hi). cbv iota; unfold ret.
  destruct (cleanup_closes c cio (srv h')) as (st' & E & Hin).
  rewrite E; eauto.
Qed.

(** C6: what a read timeout does.  With a registry free of empty keys, when
    a [recv] of the pass raises [socket.timeout]: if some key that does not
    start with TEMP_ maps to the socket, then for such a key the handler
    writes the encoded HEARTBEAT_CHECK addressed to it; if the write
    succeeds the pass ends with [continue], nothing is closed and the loop
    reads on, and if the write raises the loop is left and the socket
    closed.  If only temporary keys map to the socket, the loop is left and
    the socket closed without any write. *)
Theorem idle_timeout_policy (P : codec) (c : conn) (io : iter_io) (h h1 : hstate) :
  read_times_out c io h h1 ->
  ~ In ""%string (dict_keys (truck_sockets (srv h1))) ->
  (identified (client_sock c) (truck_sockets (srv h1)) ->
   exists tid,
     In (tid, client_sock c) (truck_sockets (srv h1)) /\ is_temp tid = false /\
     forall probe,
       build_message P "SERVER" (Some (KStr tid)) "HEARTBEAT_CHECK" [] = inr probe ->
       (io_check io = inr tt ->
        exists h2,
          iteration P c io h = (Val Continue, h2) /\
          sends (trace (srv h2)) = (client_sock c, probe, true) :: sends (trace (srv h1)) /\
          untouched (srv h1) (srv h2) /\
          forall rest, client_loop P c (io :: rest) h = client_loop P c rest h2)
       /\ (forall e, io_check io = inl e ->
           exists h2,
             iteration P c io h = (Val Break, h2) /\
             sends (trace (srv h2)) = (client_sock c, probe, false) :: sends (trace (srv h1)) /\
             forall cio rest, exists st',
               serve P c cio (last_activity_time h) (io :: rest) (srv h) = (Val tt, st') /\
               In (client_sock c) (closed st')))
  /\ (anonymous (client_sock c) (truck_sockets (srv h1)) ->
      exists h2,
        iteration P c io h = (Val Break, h2) /\
        sends (trace (srv h2)) = sends (trace (srv h1)) /\
        forall cio rest, exists st',
          serve P c cio (last_activity_time h) (io :: rest) (srv h) = (Val tt, st') /\
          In (client_sock c) (closed st')).
Proof.
  intros Hto Hkeys.
  pose proof (iteration_timeout P c io h h1 Hto) as Hit.
  split.
  - intros Hid.
    destruct (registered_truck_id_identified _ _ Hid) as (tid & Hreg).
    destruct (registered_truck_id_some _ _ _ Hreg) as [Hin Htemp].
    assert (Hne : tid <> ""%string).
    { intros ->; apply Hkeys. unfold dict_keys.
      change ""%string with (fst (""%string, client_sock c)); apply in_map; exact Hin. }
    exists tid; split; [exact Hin|]; split; [exact Htemp|].
    intros probe Hb.
    pose proof (on_timeout_probe P c io h1 tid probe Hreg Hne Hb) as Hon.
    split.
    + intros Hok; rewrite Hok in Hon; rewrite Hon in Hit.
      eexists; split; [exact Hit|]; split; [reflexivity|].
      split; [unfold untouched; simpl; auto|].
      intros rest; cbn [client_loop]. rewrite (bind_val _ _ _ _ _ Hit); reflexivity.
    + intros e He; rewrite He in Hon; rewrite Hon in Hit.
      eexists; split; [exact Hit|]; split; [reflexivity|].
      intros cio rest; eapply serve_break; exact Hit.
  - intros Han.
    pose proof (registered_truck_id_anonymous _ _ Han) as Hreg.
    rewrite (on_timeout_anonymous P c io h1 Hreg) in Hit.
    eexists; split; [exact Hit|]; split; [reflexivity|].
    intros cio rest; eapply serve_break; exact Hit.
Qed.

Lemma idle_timeout_policy_sample :
  let known := mk_hstate Sample.first_identified 10 in
  let unknown :=
    mk_hstate (snd (handler_setup Sample.truck_b (Sample.quiet []) Sample.first_identified))
      10 in
  let io := Sample.recv_raises 100 Sample.timeout in
  let io_lost := mk_iter_io 100 Sample.ok (inl Sample.timeout) (inr []) Sample.ok Sample.ok
                   Sample.ok (inl Sample.reset) 100 in
  (exists h2,
     iteration Sample.proto Sample.truck_a io known = (Val Continue, h2) /\
     sends (trace (srv h2)) = [(1, [x7f; x01; x11; x00], true)])
  /\ (exists h2 st',
        iteration Sample.proto Sample.truck_a io_lost known = (Val Break, h2) /\
        serve Sample.proto Sample.truck_a (Sample.quiet []) 10 [io_lost]
          Sample.first_identified = (Val tt, st') /\
        In 1 (closed st'))
  /\ (exists h2,
        iteration Sample.proto Sample.truck_b io unknown = (Val Break, h2) /\
        sends (trace (srv h2)) = []).
Proof.
  intros known unknown io io_lost.
  assert (Hkeys : ~ In ""%string (dict_keys (truck_sockets (srv known))))
    by (simpl; intuition discriminate).
  assert (Hid : identified (client_sock Sample.truck_a) (truck_sockets (srv known)))
    by (exists "TRUCK_1"%string; split; [left; reflexivity | reflexivity]).
  split; [|split].
  - assert (Hto : read_times_out Sample.truck_a io known known)
      by (exists known, Sample.timeout; repeat split; reflexivity).
    destruct (idle_timeout_policy Sample.proto Sample.truck_a io known known Hto Hkeys)
      as (H & _).
    destruct (H Hid) as (tid & Hin & _ & Hprobe).
    destruct Hin as [Heq|[]]; injection Heq as <-.
    destruct (Hprobe [x7f; x01; x11; x00] eq_refl) as (Hok & _).
    destruct (Hok eq_refl) as (h2 & E & S & _).
    exists h2; split; [exact E | exact S].
  - assert (Hto : read_times_out Sample.truck_a io_lost known known)
      by (exists known, Sample.timeout; repeat split; reflexivity).
    destruct (idle_timeout_policy Sample.proto Sample.truck_a io_lost known known Hto Hkeys)
      as (H & _).
    destruct (H Hid) as (tid & Hin & _ & Hprobe).
    destruct Hin as [Heq|[]]; injection Heq as <-.
    destruct (Hprobe [x7f; x01; x11; x00] eq_refl) as (_ & Hfail).
    destruct (Hfail Sample.reset eq_refl) as (h2 & E & _ & Hserve).
    destruct (Hserve (Sample.quiet []) []) as (st' & Es & Hc).
    exists h2, st'; split; [exact E|]; split; [exact Es | exact Hc].
  - assert (Hto : read_times_out Sample.truck_b io unknown unknown)
      by (exists unknown, Sample.timeout; repeat split; reflexivity).
    assert (Hkeys' : ~ In ""%string (dict_keys (truck_sockets (srv unknown))))
      by (simpl; intuition discriminate).
    destruct (idle_timeout_policy Sample.proto Sample.truck_b io unknown unknown Hto Hkeys')
      as (_ & H).
    assert (Han : anonymous (client_sock Sample.truck_b) (truck_sockets (srv unknown))).
    { intros tid Hin; simpl in Hin.
      destruct Hin as [Heq|[Heq|[]]]; inversion Heq; reflexivity. }
    destruct (H Han) as (h2 & E & S & _).
    exists h2; split; [exact E | exact S].
Defined.

(** The registry never gains an empty key: identification inserts only a
    non-empty sender, and a temporary identifier starts with TEMP_. *)

Lemma dict_set_keys (k : string) (v : sock) (d : dict string sock) k' :
  In k' (dict_keys (dict_set k v d)) -> k' = k \/ In k' (dict_keys d).
Proof.
  unfold dict_keys.
  induction d as [|[k0 v0] d IH]; simpl; unfold keq, string_KeyEq.
  - intros [<-|[]]; auto.
  - destruct (String.eqb k k0); simpl; [tauto|].
    intros [<-|Hin]; [tauto|]. destruct (IH Hin); tauto.
Qed.

Lemma dict_del_keys (k : string) (d : dict string sock) k' :
  In k' (dict_keys (dict_del k d)) -> In k' (dict_keys d).
Proof.
  unfold dict_keys.
  induction d as [|[k0 v0] d IH]; simpl; unfold keq, string_KeyEq; [tauto|].
  destruct (String.eqb k k0); simpl; tauto.
Qed.

Lemma promoted_keys_nonempty c m reg :
  ~ In ""%string (dict_keys reg) -> ~ In ""%string (dict_keys (promoted c m reg)).
Proof.
  intros Hreg; unfold promoted.
  destruct (msg_sender m) as [tid|]; [|exact Hreg].
  destruct tid as [|a tid]; [exact Hreg|]. cbn [truthy].
  intros Hin; apply dict_set_keys in Hin; destruct Hin as [Heq|Hin]; [discriminate|].
  destruct (negb _ && _); [apply dict_del_keys in Hin|]; tauto.
Qed.

Lemma handler_setup_keys_nonempty c cio st :
  ~ In ""%string (dict_keys (truck_sockets st)) ->
  ~ In ""%string (dict_keys (truck_sockets (snd (handler_setup c cio st)))).
Proof.
  intros Hreg.
  assert (Hreg' : ~ In ""%string
                    (dict_keys (dict_set (temp_truck_id c) (client_sock c) (truck_sockets st)))).
  { intros Hin; apply dict_set_keys in Hin; destruct Hin as [Heq|Hin];
      [discriminate | tauto]. }
  unfold handler_setup; run_monad.
  destruct (io_commander_initial cio) as [e|[]];
    (destruct (io_keepalive cio) as [e'|[]];
     [destruct (exn_cls e')|]); exact Hreg'.
Qed.

(** ** First identification

    The path of lines 231-236 taken when the identifier is not yet a key:
    the temporary key goes and the socket is left under exactly one key. *)

Lemma dict_get_absent (k : string) (d : dict string sock) :
  ~ In k (dict_keys d) -> dict_get k d = None.
Proof.
  unfold dict_keys.
  induction d as [|[k0 v0] d IH]; simpl; unfold keq, string_KeyEq; [reflexivity|].
  intros Hn. destruct (String.eqb k k0) eqn:E.
  - apply String.eqb_eq in E; subst; tauto.
  - apply IH; tauto.
Qed.

Lemma dict_mem_false (k : string) (d : dict string sock) :
  dict_mem k d = false -> ~ In k (dict_keys d).
Proof.
  unfold dict_mem, dict_keys.
  induction d as [|[k0 v0] d IH]; simpl; unfold keq, string_KeyEq; [tauto|].
  destruct (String.eqb k k0) eqn:E; [discriminate|].
  apply String.eqb_neq in E. intros Hm [Heq|Hin]; [congruence | exact (IH Hm Hin)].
Qed.

Lemma dict_set_entries (k : string) (v : sock) (d : dict string sock) k' v' :
  In (k', v') (dict_set k v d) -> (k' = k /\ v' = v) \/ In (k', v') d.
Proof.
  induction d as [|[k0 v0] d IH]; simpl; unfold keq, string_KeyEq.
  - intros [[= <- <-]|[]]; auto.
  - destruct (String.eqb k k0) eqn:E; simpl.
    + apply String.eqb_eq in E; subst k0.
      intros [[= <- <-]|Hin]; auto.
    + intros [Heq|Hin]; [auto|]. destruct (IH Hin); auto.
Qed.

Lemma dict_del_entries (k : string) (d : dict string sock) k' v' :
  In (k', v') (dict_del k d) -> In (k', v') d.
Proof.
  induction d as [|[k0 v0] d IH]; simpl; unfold keq, string_KeyEq; [tauto|].
  destruct (String.eqb k k0); simpl; tauto.
Qed.

Lemma dict_del_removes (k : string) (d : dict string sock) :
  NoDup (dict_keys d) -> ~ In k (dict_keys (dict_del k d)).
Proof.
  unfold dict_keys.
  induction d as [|[k0 v0] d IH]; simpl; unfold keq, string_KeyEq; [tauto|].
  intros Hnd; inversion Hnd as [|? ? Hnotin Hnd']; subst.
  destruct (String.eqb k k0) eqn:E; simpl.
  - apply String.eqb_eq in E; subst; exact Hnotin.
  - apply String.eqb_neq in E. intros [Heq|Hin]; [congruence | exact (IH Hnd' Hin)].
Qed.

Lemma first_identification_replaces_temporary c m reg tid :
  msg_sender m = Some tid ->
  tid <> ""%string ->
  tid <> temp_truck_id c ->
  NoDup (dict_keys reg) ->
  dict_mem tid reg = false ->
  (forall k, In (k, client_sock c) reg -> k = temp_truck_id c) ->
  dict_get (temp_truck_id c) (promoted c m reg) = None /\
  dict_get tid (promoted c m reg) = Some (client_sock c) /\
  forall k, In (k, client_sock c) (promoted c m reg) -> k = tid.
Proof.
  intros Hs Hne Htemp Hnd Hfresh Honly; unfold promoted.
  rewrite Hs, (truthy_nonempty tid Hne), Hfresh; cbn [negb andb].
  set (base := if dict_mem (temp_truck_id c) reg
               then dict_del (temp_truck_id c) reg else reg).
  assert (Hbase : ~ In (temp_truck_id c) (dict_keys base)).
  { subst base. destruct (dict_mem (temp_truck_id c) reg) eqn:Hm.
    - apply dict_del_removes; exact Hnd.
    - apply dict_mem_false; exact Hm. }
  assert (Hsub : forall k v, In (k, v) base -> In (k, v) reg).
  { subst base. destruct (dict_mem (temp_truck_id c) reg); [|auto].
    intros k v; apply dict_del_entries. }
  split; [|split].
  - apply dict_get_absent. intros Hin; apply dict_set_keys in Hin.
    destruct Hin as [Heq|Hin]; [congruence | tauto].
  - apply dict_get_set_same.
  - intros k Hin. apply dict_set_entries in Hin. destruct Hin as [[Hk _]|Hin]; [exact Hk|].
    exfalso; apply Hbase.
    rewrite <- (Honly k (Hsub _ _ Hin)).
    unfold dict_keys; change k with (fst (k, client_sock c)); apply in_map; exact Hin.
Qed.

(** * Further properties of the code *)

(** ** Port probing *)

Lemma is_port_in_use_run probe p h st :
  is_port_in_use probe p h st
  = (match probe (h, p) with
     | inr _ => Val false
     | inl e => if is_OSError e then Val true else Raise e
     end,
     mark_closed (next_sock st)
       (emit (EvClose (next_sock st))
          (emit (EvBind (next_sock st) (h, p))
             (emit (EvSocket (next_sock st)) (bump_next_sock st))))).
Proof.
  unfold is_port_in_use, sock_bind_at; run_monad.
  destruct (probe (h, p)) as [e|[]]; [destruct (is_OSError e)|]; reflexivity.
Qed.

Lemma is_port_in_use_closes_frame probe p h st :
  same_server st (snd (is_port_in_use probe p h st)) /\
  sends (trace (snd (is_port_in_use probe p h st))) = sends (trace st) /\
  next_sock (snd (is_port_in_use probe p h st)) = S (next_sock st) /\
  closed (snd (is_port_in_use probe p h st)) = next_sock st :: closed st.
Proof.
  rewrite is_port_in_use_run; simpl. unfold same_server; simpl.
  split; [auto|]. split; [reflexivity|]. split; reflexivity.
Qed.

(** X1: [is_port_in_use] answers [False] when the bind succeeds and [True]
    when it fails with an [OSError]; any other exception of [bind] reaches
    the caller.  On every way out the probing socket has been closed, and
    the server's own fields and the sockets written to are as before. *)
Theorem is_port_in_use_closes_probe (probe : addr -> exn + unit) (p : N) (h : string)
    (st : state) :
  fst (is_port_in_use probe p h st)
  = match probe (h, p) with
    | inr _ => Val false
    | inl e => if is_OSError e then Val true else Raise e
    end
  /\ closed (snd (is_port_in_use probe p h st)) = next_sock st :: closed st
  /\ same_server st (snd (is_port_in_use probe p h st))
  /\ sends (trace (snd (is_port_in_use probe p h st))) = sends (trace st).
Proof.
  rewrite is_port_in_use_run; simpl.
  split; [reflexivity|]; split; [reflexivity|]; split; [|reflexivity].
  unfold same_server; simpl; auto.
Qed.

Lemma scan_ports_spec probe h count :
  forall p st,
    match fst (scan_ports probe h p count st) with
    | Val (Some r) =>
        (p <= r < p + N.of_nat count)%N /\ probe (h, r) = inr tt /\
        forall q, (p <= q < r)%N ->
                  exists e, probe (h, q) = inl e /\ is_OSError e = true
    | Val None =>
        forall q, (p <= q < p + N.of_nat count)%N ->
                  exists e, probe (h, q) = inl e /\ is_OSError e = true
    | Raise e =>
        exists r, (p <= r < p + N.of_nat count)%N /\ probe (h, r) = inl e /\
                  is_OSError e = false /\
                  forall q, (p <= q < r)%N ->
                            exists e', probe (h, q) = inl e' /\ is_OSError e' = true
    | Blocked => False
    end.
Proof.
  induction count as [|n IH]; intros p st; cbn [scan_ports].
  - simpl. intros q Hq; lia.
  - unfold bind at 1. rewrite is_port_in_use_run.
    destruct (probe (h, p)) as [e|[]] eqn:Hp.
    + destruct (is_OSError e) eqn:He; cbn [negb].
      * match goal with |- context [scan_ports probe h (p + 1)%N n ?s] =>
          specialize (IH (p + 1)%N s); destruct (scan_ports probe h (p + 1)%N n s) as [r s']
        end.
        cbn [fst] in *. destruct r as [[r|]|e'|].
        -- destruct IH as (Hr & Hfree & Hbusy). split; [lia|]. split; [exact Hfree|].
           intros q Hq. destruct (N.eq_dec q p) as [->|Hne]; [eauto|].
           apply Hbusy; lia.
        -- intros q Hq. destruct (N.eq_dec q p) as [->|Hne]; [eauto|].
           apply IH; lia.
        -- destruct IH as (r & Hr & Hraise & Hcls & Hbusy).
           exists r. split; [lia|]. split; [exact Hraise|]. split; [exact Hcls|].
           intros q Hq. destruct (N.eq_dec q p) as [->|Hne]; [eauto|].
           apply Hbusy; lia.
        -- exact IH.
      * cbn [fst]. exists p. split; [lia|]. split; [exact Hp|]. split; [exact He|].
        intros q Hq; lia.
    + cbn [negb fst ret]. split; [lia|]. split; [exact Hp|]. intros q Hq; lia.
Qed.

(** X2: [find_available_port] returns the first port of
    [start_port..max_port] whose bind succeeds, every port before it having
    failed with an [OSError]; it returns [None] exactly when every port of
    the range fails so (in particular for an empty range); and the only
    exception it lets through is a non-[OSError] raised by the bind of the
    first port that did not fail with an [OSError]. *)
Theorem find_available_port_first_free (probe : addr -> exn + unit)
    (start_port max_port : N) (h : string) (st : state) :
  match fst (find_available_port probe start_port max_port h st) with
  | Val (Some r) =>
      (start_port <= r <= max_port)%N /\ probe (h, r) = inr tt /\
      forall q, (start_port <= q < r)%N ->
                exists e, probe (h, q) = inl e /\ is_OSError e = true
  | Val None =>
      forall q, (start_port <= q <= max_port)%N ->
                exists e, probe (h, q) = inl e /\ is_OSError e = true
  | Raise e =>
      exists r, (start_port <= r <= max_port)%N /\ probe (h, r) = inl e /\
                is_OSError e = false /\
                forall q, (start_port <= q < r)%N ->
                          exists e', probe (h, q) = inl e' /\ is_OSError e' = true
  | Blocked => False
  end.
Proof.
  unfold find_available_port.
  pose proof (scan_ports_spec probe h (N.to_nat (max_port + 1 - start_port))
                start_port st) as H.
  destruct (fst (scan_ports probe h start_port _ st)) as [[r|]|e|].
  - destruct H as (Hr & Hfree & Hbusy). split; [lia|]. split; assumption.
  - intros q Hq; apply H; lia.
  - destruct H as (r & Hr & Hraise & Hcls & Hbusy).
    exists r. split; [lia|]. repeat split; assumption.
  - exact H.
Qed.

Lemma find_available_port_first_free_sample :
  fst (find_available_port only_8002_free 8000 8002 "0.0.0.0" (init "0.0.0.0" 8000))
  = Val (Some 8002%N)
  /\ (exists e, only_8002_free ("0.0.0.0"%string, 8001%N) = inl e /\ is_OSError e = true)
  /\ fst (find_available_port only_8002_free 8000 8001 "0.0.0.0" (init "0.0.0.0" 8000))
     = Val None
  /\ fst (find_available_port only_8002_free 8005 8002 "0.0.0.0" (init "0.0.0.0" 8000))
     = Val None.
Proof.
  pose proof (find_available_port_first_free only_8002_free 8000 8002 "0.0.0.0"
                (init "0.0.0.0" 8000)) as H.
  change (fst (find_available_port only_8002_free 8000 8002 "0.0.0.0"
                 (init "0.0.0.0" 8000)))
    with (@Val (option N) (Some 8002%N)) in H.
  destruct H as (_ & _ & Hbusy).
  split; [reflexivity|]. split; [apply Hbusy; lia|]. split; reflexivity.
Defined.

Lemma scan_ports_step probe h p n st :
  scan_ports probe h p (S n) st
  = let st1 := snd (is_port_in_use probe p h st) in
    match probe (h, p) with
    | inr _ => (Val (Some p), st1)
    | inl e => if is_OSError e then scan_ports probe h (p + 1)%N n st1
               else (Raise e, st1)
    end.
Proof.
  cbn [scan_ports]. unfold bind. rewrite is_port_in_use_run. cbn [snd].
  destruct (probe (h, p)) as [e|[]]; [destruct (is_OSError e)|]; reflexivity.
Qed.

Lemma scan_ports_frame probe h count :
  forall p st,
    same_server st (snd (scan_ports probe h p count st)) /\
    sends (trace (snd (scan_ports probe h p count st))) = sends (trace st) /\
    next_sock st <= next_sock (snd (scan_ports probe h p count st)) /\
    (forall s, In s (closed st) -> In s (closed (snd (scan_ports probe h p count st)))) /\
    (forall s, next_sock st <= s < next_sock (snd (scan_ports probe h p count st)) ->
               In s (closed (snd (scan_ports probe h p count st)))).
Proof.
  induction count as [|n IH]; intros p st.
  - simpl. unfold same_server. repeat split; auto. intros s Hs; lia.
  - rewrite scan_ports_step. cbv zeta.
    destruct (is_port_in_use_closes_frame probe p h st) as (Hs1 & Ht1 & Hn1 & Hc1).
    set (st1 := snd (is_port_in_use probe p h st)) in *.
    assert (Hdone : forall r : result (option N),
               same_server st (snd (r, st1)) /\
               sends (trace (snd (r, st1))) = sends (trace st) /\
               next_sock st <= next_sock (snd (r, st1)) /\
               (forall s, In s (closed st) -> In s (closed (snd (r, st1)))) /\
               (forall s, next_sock st <= s < next_sock (snd (r, st1)) ->
                          In s (closed (snd (r, st1))))).
    { intros r; cbn [snd]. rewrite Hn1, Hc1.
      split; [exact Hs1|]. split; [exact Ht1|]. split; [lia|].
      split; [intros s Hs; right; exact Hs|].
      intros s Hs; left; lia. }
    clearbody st1.
    destruct (probe (h, p)) as [e|[]];
      [destruct (is_OSError e)|]; try apply Hdone.
    destruct (IH (p + 1)%N st1) as (Hs & Ht & Hn & Hc & Hnew).
    destruct Hs1 as (A1 & A2 & A3 & A4); destruct Hs as (B1 & B2 & B3 & B4).
    split; [unfold same_server; split; [|split; [|split]]; congruence|].
    split; [congruence|]. split; [lia|].
    split.
    + intros s Hin; apply Hc; rewrite Hc1; right; exact Hin.
    + intros s Hrange.
      destruct (Nat.eq_dec s (next_sock st)) as [->|Hne].
      * apply Hc; rewrite Hc1; left; reflexivity.
      * apply Hnew; lia.
Qed.

(** X3: scanning for a free port leaves nothing behind: the server's
    dictionaries, running flag and listening socket are as before, nothing
    was written to any socket, and every socket the scan created has been
    closed. *)
Theorem find_available_port_leaves_nothing (probe : addr -> exn + unit)
    (start_port max_port : N) (h : string) (st : state) :
  let st' := snd (find_available_port probe start_port max_port h st) in
  same_server st st' /\
  sends (trace st') = sends (trace st) /\
  forall s, next_sock st <= s < next_sock st' -> In s (closed st').
Proof.
  intros st'; subst st'; unfold find_available_port.
  destruct (scan_ports_frame probe h (N.to_nat (max_port + 1 - start_port)) start_port st)
    as (Hs & Ht & _ & _ & Hnew).
  split; [exact Hs|]; split; [exact Ht | exact Hnew].
Qed.

Lemma find_available_port_leaves_nothing_sample :
  In 1 (closed (snd (find_available_port only_8002_free 8000 8002 "0.0.0.0"
                       (init "0.0.0.0" 8000)))).
Proof.
  destruct (find_available_port_leaves_nothing only_8002_free 8000 8002 "0.0.0.0"
              (init "0.0.0.0" 8000)) as (_ & _ & H).
  apply H. vm_compute. split; repeat constructor.
Defined.

(** ** The listener as a whole *)

Lemma bind_listener_running sio st :
  running (snd (bind_listener sio st)) = running st /\
  clients (snd (bind_listener sio st)) = clients st.
Proof.
  unfold bind_listener, open_listener, sock_bind; run_monad; simpl.
  destruct (io_bind sio) as [e|[]]; simpl; [|auto].
  destruct (is_OSError e); simpl; [|auto].
  destruct (contains _ _); simpl; [|auto].
  destruct (io_rebind sio) as [e'|[]]; simpl; auto.
Qed.

Lemma listen_running o st :
  running (snd (listen o st)) = running st /\
  clients (snd (listen o st)) = clients st.
Proof.
  unfold listen; run_monad.
  destruct (server_sock st); [destruct o as [e|[]]|]; simpl; auto.
Qed.








(** ** Dictionaries over any key *)

Section DictFacts.
Context {K V : Type} `{KeyEq K}.

Lemma dict_set_values (k : K) (v : V) (d : dict K V) k' v' :
  In (k', v') (dict_set k v d) -> v' = v \/ In (k', v') d.
Proof.
  induction d as [|[k0 v0] d IH]; simpl.
  - intros [[= <- <-]|[]]; auto.
  - destruct (keq k k0); simpl.
    + intros [[= <- <-]|Hin]; auto.
    + intros [Heq|Hin]; [auto|]. destruct (IH Hin); auto.
Qed.

Lemma dict_del_subset (k : K) (d : dict K V) x :
  In x (dict_del k d) -> In x d.
Proof.
  induction d as [|[k0 v0] d IH]; simpl; [tauto|].
  destruct (keq k k0); simpl; tauto.
Qed.

Lemma dict_get_entry (k : K) (v : V) (d : dict K V) :
  dict_get k d = Some v -> exists k', In (k', v) d.
Proof.
  induction d as [|[k0 v0] d IH]; simpl; [discriminate|].
  destruct (keq k k0).
  - intros [= <-]; eauto.
  - intros Hg; destruct (IH Hg) as (k' & Hin); eauto.
Qed.

Hypothesis keq_eq : forall x y : K, keq x y = true <-> x = y.

Lemma dict_get_del_same (k : K) (d : dict K V) :
  NoDup (dict_keys d) -> dict_get k (dict_del k d) = None.
Proof.
  unfold dict_keys.
  induction d as [|[k0 v0] d IH]; simpl; [reflexivity|].
  intros Hnd; inversion Hnd as [|? ? Hnotin Hnd']; subst.
  destruct (keq k k0) eqn:E.
  - apply keq_eq in E; subst k0.
    clear IH Hnd Hnd'. induction d as [|[k1 v1] d IHd]; simpl; [reflexivity|].
    destruct (keq k k1) eqn:E1.
    + apply keq_eq in E1; subst k1. exfalso; apply Hnotin; left; reflexivity.
    + apply IHd. intros Hin; apply Hnotin; right; exact Hin.
  - simpl; rewrite E; apply IH; exact Hnd'.
Qed.

Lemma dict_get_missing (k : K) (d : dict K V) :
  dict_mem k d = false -> dict_get k d = None.
Proof.
  unfold dict_mem; destruct (dict_get k d); [discriminate | reflexivity].
Qed.
End DictFacts.

Lemma addr_eqb_eq (a b : addr) : addr_eqb a b = true <-> a = b.
Proof.
  destruct a as [h p], b as [h' p']; unfold addr_eqb; simpl.
  rewrite andb_true_iff, String.eqb_eq, N.eqb_eq.
  split; [intros [-> ->]; reflexivity | intros [= -> ->]; auto].
Qed.

Lemma pykey_eqb_eq (a b : pykey) : pykey_eqb a b = true <-> a = b.
Proof.
  destruct a, b; simpl;
    rewrite ?String.eqb_eq, ?addr_eqb_eq;
    split; intros Heq; try discriminate; try congruence.
Qed.

(** ** What [start] stores and [send_message] reads *)

Lemma accept_loop_plain script :
  forall st, clients_plain st -> clients_plain (snd (accept_loop script st)).
Proof.
  induction script as [|ev rest IH]; intros st Hp; cbn [accept_loop];
    unfold bind at 1, gets at 1; destruct (running st) eqn:Hr; cbn [negb];
    try exact Hp.
  destruct ev as [a|e|sio e].
  - run_monad. apply IH. intros k v Hin; simpl in Hin.
    apply dict_set_values in Hin. destruct Hin as [->|Hin]; [eauto|].
    exact (Hp k v Hin).
  - destruct (exn_cls e); try (apply IH; exact Hp);
      (destruct (is_OSError e);
       [unfold accept_failed; run_monad; rewrite Hr; exact Hp | exact Hp]).
  - destruct (safe_stop_running sio st Hr) as (s1 & E1 & R1 & C1 & _).
    rewrite (bind_val _ _ _ _ _ E1).
    assert (H1 : clients_plain s1)
      by (intros k v Hin; rewrite C1 in Hin; destruct Hin).
    destruct (exn_cls e); try (apply IH; exact H1);
      (destruct (is_OSError e);
       [unfold accept_failed; run_monad; rewrite R1; exact H1 | exact H1]).
Qed.

(** X5: a server that runs [start] only ever holds plain sockets in
    [clients]: if that is so before [start], it is so in every state [start]
    leaves, be it returned from or still waiting in [accept]. *)
Theorem start_stores_plain_sockets (sio : start_io) (st : state) :
  clients_plain st -> clients_plain (snd (start sio st)).
Proof.
  intros Hp. unfold start. unfold bind at 1, modify at 1.
  unfold try_finally, try_except.
  assert (Hbody : clients_plain
            (snd (bind (bind_listener sio)
                    (fun _ => bind (listen (io_listen sio))
                       (fun _ => bind (log LogServerStarted)
                          (fun _ => accept_loop (io_accepts sio))))
                    (set_running true st)))).
  { unfold bind at 1.
    destruct (bind_listener_running sio (set_running true st)) as (_ & C1).
    destruct (bind_listener sio (set_running true st)) as [r1 s1]; cbn [snd] in C1.
    assert (Hs1 : clients_plain s1)
      by (intros k v Hin; rewrite C1 in Hin; exact (Hp k v Hin)).
    destruct r1 as [[]|e|]; try exact Hs1.
    unfold bind at 1.
    destruct (listen_running (io_listen sio) s1) as (_ & C2).
    destruct (listen (io_listen sio) s1) as [r2 s2]; cbn [snd] in C2.
    assert (Hs2 : clients_plain s2)
      by (intros k v Hin; rewrite C2 in Hin; exact (Hs1 k v Hin)).
    destruct r2 as [[]|e|]; try exact Hs2.
    unfold bind at 1, log, modify. apply accept_loop_plain. exact Hs2. }
  destruct (bind (bind_listener sio) _ (set_running true st)) as [rb sb];
    cbn [snd] in Hbody.
  assert (Hstop : forall s, clients_plain s -> clients_plain (snd (stop (io_stop sio) s))).
  { intros s Hs.
    destruct (stop_cases (io_stop sio) s) as [(_ & _ & E)|(s1 & E1 & _ & E)];
      rewrite E; cbn [snd]; [exact Hs|].
    destruct (running s) eqn:Hr.
    - destruct (safe_stop_running (io_stop sio) s Hr) as (s2 & E2 & _ & C2 & _).
      rewrite E1 in E2; injection E2 as <-.
      intros k v Hin; simpl in Hin; rewrite C2 in Hin; destruct Hin.
    - rewrite (safe_stop_stopped (io_stop sio) s Hr) in E1; injection E1 as <-.
      exact Hs. }
  destruct rb as [[]|e|].
  - specialize (Hstop sb Hbody).
    destruct (stop (io_stop sio) sb) as [[[]|e'|] s']; exact Hstop.
  - unfold any_exception, log, modify.
    specialize (Hstop (emit (EvLog LogServerError) sb) Hbody).
    destruct (stop (io_stop sio) _) as [[[]|e'|] s']; exact Hstop.
  - exact Hbody.
Qed.

Lemma start_stores_plain_sockets_sample :
  clients_plain Sample.two_accepted.
Proof.
  apply (start_stores_plain_sockets
           (mk_start_io Sample.ok Sample.ok Sample.ok
              [Accepted (client_addr Sample.truck_a);
               Accepted (client_addr Sample.truck_b)] Sample.calm)
           (init "0.0.0.0" 8000)).
  intros k v [].
Defined.

(** X6: with plain sockets in [clients], [send_message] never delivers:
    whatever the identifier, command and payload, it does not return
    [True], writes to no socket and leaves the dictionaries, the closed
    sockets and the consumer alone.  (It returns [False] for an unknown key
    and raises [TypeError] for a known one.) *)
Theorem send_message_plain_never_delivers (P : codec) (client_id : pykey)
    (cmd : string) (pl : option payload) (outcome : exn + unit) (st : state) :
  clients_plain st ->
  (fst (send_message P client_id cmd pl outcome st) = Val false \/
   fst (send_message P client_id cmd pl outcome st)
   = Raise (mk_exn TypeError "'socket' object is not subscriptable"))
  /\ sends (trace (snd (send_message P client_id cmd pl outcome st))) = sends (trace st)
  /\ untouched st (snd (send_message P client_id cmd pl outcome st)).
Proof.
  intros Hp. unfold send_message, subscript_socket; run_monad.
  assert (Hget : forall v, dict_get client_id (clients st) = Some v ->
                           exists s, v = PlainSocket s).
  { intros v Hg. destruct (dict_get_entry _ _ _ Hg) as (k' & Hin).
    exact (Hp k' v Hin). }
  destruct (negb (String.eqb cmd "HEARTBEAT_ACK")); cbv beta iota;
    change (clients (emit _ st)) with (clients st);
    (destruct (dict_get client_id (clients st)) as [v|] eqn:G;
     [destruct (Hget v eq_refl) as (s & ->)|]);
    unfold untouched; simpl; auto 6.
Qed.

Lemma send_message_plain_never_delivers_sample :
  let st := mk_state "0.0.0.0" 8000 [(KAddr ("10.0.0.7"%string, 5000%N), PlainSocket 1)]
              [("TRUCK_1"%string, 1)] true (Some 0) [] 2 [] in
  sends (trace (snd (send_message Sample.proto (KAddr ("10.0.0.7"%string, 5000%N))
                       "RUN" None Sample.ok st)))
  = sends (trace st).
Proof.
  intros st.
  assert (Hp : clients_plain st).
  { intros k v [Heq|[]]. injection Heq as <- <-. exists 1; reflexivity. }
  destruct (send_message_plain_never_delivers Sample.proto
              (KAddr ("10.0.0.7"%string, 5000%N)) "RUN" None Sample.ok st Hp)
    as (_ & H & _).
  exact H.
Defined.

(** ** More about one pass of the handler *)

Lemma read_frame_result c io h0 r h1 :
  read_frame c io h0 = (r, h1) -> r <> Blocked.
Proof.
  unfold read_frame; run_handler.
  destruct (io_header io) as [e|hd]; cbv beta iota; [intros [= <- <-]; discriminate|].
  destruct (List.length (firstn 4 hd) =? 0); cbv beta iota;
    [intros [= <- <-]; discriminate|].
  destruct (List.length (firstn 4 hd) <? 4); cbv beta iota;
    [intros [= <- <-]; discriminate|].
  destruct (0 <? payload_len (firstn 4 hd)); cbv beta iota;
    [|intros [= <- <-]; discriminate].
  destruct (io_payload io) as [e|pd]; cbv beta iota;
    [intros [= <- <-]; discriminate|].
  destruct (List.length (firstn _ pd) <? _); cbv beta iota;
    intros [= <- <-]; discriminate.
Qed.

(** X7: the buffer handed to the codec is a whole frame: four header
    bytes followed by exactly as many payload bytes as the header's fourth
    byte announces, hence at most 259 bytes; reading it moves
    [last_activity_time] to the time of the pass and changes nothing
    else. *)
Theorem frame_is_header_plus_announced_payload (c : conn) (io : iter_io)
    (h0 : hstate) (raw : bytes) (h1 : hstate) :
  read_frame c io h0 = (Val (Next raw), h1) ->
  List.length raw = 4 + payload_len raw /\
  payload_len raw <= 255 /\
  List.length raw <= 259 /\
  last_activity_time h1 = io_now io /\
  srv h1 = srv h0.
Proof.
  assert (Hbound : forall l, payload_len l <= 255).
  { intros l; unfold payload_len.
    pose proof (Byte.to_N_bounded (nth 3 l x00)); lia. }
  unfold read_frame; run_handler.
  destruct (io_header io) as [e|hd]; cbv beta iota; [discriminate|].
  destruct (Nat.eqb_spec (List.length (firstn 4 hd)) 0) as [_|Hne]; cbv beta iota;
    [discriminate|].
  destruct (Nat.ltb_spec (List.length (firstn 4 hd)) 4) as [_|Hge]; cbv beta iota;
    [discriminate|].
  assert (Hlen : List.length (firstn 4 hd) = 4)
    by (pose proof (firstn_le_length 4 hd); lia).
  assert (Hpl : forall tl, payload_len (firstn 4 hd ++ tl) = payload_len (firstn 4 hd))
    by (intros tl; unfold payload_len; rewrite app_nth1 by lia; reflexivity).
  destruct (Nat.ltb_spec 0 (payload_len (firstn 4 hd))) as [Hpos|Hzero]; cbv beta iota.
  - destruct (io_payload io) as [e|pd]; cbv beta iota; [discriminate|].
    destruct (Nat.ltb_spec (List.length (firstn (payload_len (firstn 4 hd)) pd))
                (payload_len (firstn 4 hd))) as [_|Hfull]; cbv beta iota;
      [discriminate|].
    intros Heq.
    assert (Hraw : raw = firstn 4 hd ++ firstn (payload_len (firstn 4 hd)) pd)
      by congruence.
    assert (Hh1 : h1 = mk_hstate (srv h0) (io_now io)) by congruence.
    subst raw h1. rewrite Hpl, length_app.
    pose proof (firstn_le_length (payload_len (firstn 4 hd)) pd).
    pose proof (Hbound (firstn 4 hd)).
    cbn [srv last_activity_time].
    split; [lia|]. split; [lia|]. split; [lia|]. split; reflexivity.
  - intros Heq.
    assert (Hraw : raw = firstn 4 hd ++ []) by congruence.
    assert (Hh1 : h1 = mk_hstate (srv h0) (io_now io)) by congruence.
    subst raw h1. rewrite Hpl, length_app.
    pose proof (Hbound (firstn 4 hd)).
    cbn [srv last_activity_time List.length].
    split; [lia|]. split; [lia|]. split; [lia|]. split; reflexivity.
Qed.

Lemma frame_is_header_plus_announced_payload_sample :
  let io := Sample.delivers 10 [x01; x00; x02; x03] [x0a; x0b; x0c; x0d; x0e] in
  let h0 := mk_hstate Sample.two_accepted 0 in
  fst (read_frame Sample.truck_a io h0)
  = Val (Next [x01; x00; x02; x03; x0a; x0b; x0c])
  /\ List.length [x01; x00; x02; x03; x0a; x0b; x0c] <= 259.
Proof.
  intros io h0. split; [reflexivity|].
  destruct (frame_is_header_plus_announced_payload Sample.truck_a io h0
              [x01; x00; x02; x03; x0a; x0b; x0c]
              (snd (read_frame Sample.truck_a io h0)) eq_refl)
    as (_ & _ & H & _).
  exact H.
Defined.

(** X8: losing the transport ends the handler.  When [recv(4)] returns no
    bytes, or a [recv] raises [ConnectionResetError] or
    [ConnectionAbortedError], the pass ends with [break]: nothing is written,
    the consumer is not called, and the handler goes on to its [finally]
    block, which closes the socket. *)
Theorem transport_loss_ends_handler (P : codec) (c : conn) (io : iter_io)
    (h h0 : hstate) :
  reaches_read c io h h0 ->
  (io_header io = inr [] \/
   exists e h1, read_frame c io h0 = (Raise e, h1) /\
                (exn_cls e = ConnectionResetError \/ exn_cls e = ConnectionAbortedError)) ->
  exists h',
    iteration P c io h = (Val Break, h') /\
    untouched (srv h) (srv h') /\
    sends (trace (srv h')) = sends (trace (srv h0)) /\
    forall cio rest, exists st',
      serve P c cio (last_activity_time h) (io :: rest) (srv h) = (Val tt, st') /\
      In (client_sock c) (closed st').
Proof.
  intros Ha Hloss.
  destruct (activity_check_frame _ _ _ _ _ Ha) as (_ & U).
  assert (exists h', iteration P c io h = (Val Break, h') /\
                     untouched (srv h0) (srv h') /\
                     sends (trace (srv h')) = sends (trace (srv h0)))
    as (h' & Hi & U' & Hs).
  { destruct Hloss as [Hempty | (e & h1 & Hr & Hcls)].
    - assert (Hr : read_frame c io h0
                   = (Val (Jump Break),
                      mk_hstate (emit (EvLog LogConnectionClosed) (srv h0))
                        (last_activity_time h0)))
        by (unfold read_frame; run_handler; rewrite Hempty; reflexivity).
      eexists; split; [exact (iteration_jump P c io h h0 _ Break Ha Hr)|].
      split; [unfold untouched; simpl; auto | reflexivity].
    - pose proof (read_frame_frame _ _ _ _ _ Hr) as U1.
      assert (Hs1 : sends (trace (srv h1)) = sends (trace (srv h0))).
      { revert Hr. unfold read_frame; run_handler.
        destruct (io_header io) as [e0|hd]; cbv beta iota; [intros [= _ <-]; reflexivity|].
        destruct (List.length (firstn 4 hd) =? 0); cbv beta iota; [discriminate|].
        destruct (List.length (firstn 4 hd) <? 4); cbv beta iota; [discriminate|].
        destruct (0 <? payload_len (firstn 4 hd)); cbv beta iota; [|discriminate].
        destruct (io_payload io) as [e0|pd]; cbv beta iota;
          [intros [= _ <-]; reflexivity|].
        destruct (List.length (firstn _ pd) <? _); discriminate. }
      unfold reaches_read in Ha.
      unfold iteration, try_except, iteration_body.
      rewrite (bind_val _ _ _ _ _ Ha); cbv iota.
      rewrite (bind_raise _ _ _ _ _ Hr). unfold any_exception.
      destruct Hcls as [-> | ->]; run_handler;
        eexists; (split; [reflexivity|]); simpl;
        (split; [destruct U1 as (A & B & C & D); unfold untouched; simpl; auto
                |exact Hs1]). }
  exists h'; split; [exact Hi|]; split; [eapply untouched_trans; eassumption|].
  split; [exact Hs|]. intros cio rest; eapply serve_break; exact Hi.
Qed.

Lemma transport_loss_ends_handler_sample :
  let h := mk_hstate Sample.first_identified 10 in
  (exists h' st',
     iteration Sample.proto Sample.truck_a (Sample.delivers 11 [] []) h = (Val Break, h') /\
     serve Sample.proto Sample.truck_a (Sample.quiet []) 10 [Sample.delivers 11 [] []]
       Sample.first_identified = (Val tt, st') /\
     In 1 (closed st'))
  /\ (exists h',
        iteration Sample.proto Sample.truck_a (Sample.recv_raises 11 Sample.reset) h
        = (Val Break, h')).
Proof.
  intros h. split.
  - destruct (transport_loss_ends_handler Sample.proto Sample.truck_a
                (Sample.delivers 11 [] []) h h eq_refl (or_introl eq_refl))
      as (h' & E & _ & _ & Hserve).
    destruct (Hserve (Sample.quiet []) []) as (st' & Es & Hc).
    exists h', st'; split; [exact E|]; split; [exact Es | exact Hc].
  - destruct (transport_loss_ends_handler Sample.proto Sample.truck_a
                (Sample.recv_raises 11 Sample.reset) h h eq_refl) as (h' & E & _).
    + right. exists Sample.reset, h. split; [reflexivity | left; reflexivity].
    + exists h'; exact E.
Defined.

Lemma iteration_framed P c io h h0 raw hr :
  reaches_read c io h h0 ->
  read_frame c io h0 = (Val (Next raw), hr) ->
  iteration P c io h
  = try_except
      (bind (decode P raw)
         (fun d => match d with
                   | Jump j => ret j
                   | Next message =>
                       bind (register c io message) (fun _ => dispatch P c io message)
                   end))
      any_exception
      (fun e =>
         match exn_cls e with
         | ConnectionResetError => bind (lift (log LogConnectionReset)) (fun _ => ret Break)
         | ConnectionAbortedError =>
             bind (lift (log LogConnectionAborted)) (fun _ => ret Break)
         | SocketTimeout => on_timeout P c io
         | _ => bind (lift (log LogIterationError)) (fun _ => ret Continue)
         end)
      (snd (lift (log LogRawData) hr)).
Proof.
  unfold reaches_read; intros Ha Hr.
  unfold iteration, iteration_body, try_except.
  rewrite (bind_val _ _ _ _ _ Ha); cbv iota.
  rewrite (bind_val _ _ _ _ _ Hr); cbv iota.
  rewrite (bind_val (lift (log LogRawData)) _ hr tt (snd (lift (log LogRawData) hr)))
    by reflexivity.
  reflexivity.
Qed.

(** X9: a frame the codec rejects costs nothing but the frame.  When the
    codec raises on a well-framed buffer, or answers a message of type
    INVALID, the pass logs it and ends with [continue]: the connection stays
    open and registered as it was, nothing is written, the consumer is not
    called, and the loop goes on reading. *)
Theorem rejected_frame_keeps_connection (P : codec) (c : conn) (io : iter_io)
    (h h0 : hstate) (raw : bytes) (hr : hstate) :
  reaches_read c io h h0 ->
  read_frame c io h0 = (Val (Next raw), hr) ->
  ((exists e, parse_message P raw = inl e) \/
   (exists m, parse_message P raw = inr m /\ msg_type m = Some "INVALID"%string)) ->
  exists h',
    iteration P c io h = (Val Continue, h') /\
    untouched (srv h) (srv h') /\
    sends (trace (srv h')) = sends (trace (srv hr)) /\
    forall rest, client_loop P c (io :: rest) h = client_loop P c rest h'.
Proof.
  intros Ha Hr Hbad.
  destruct (activity_check_frame _ _ _ _ _ Ha) as (_ & U0).
  pose proof (read_frame_frame _ _ _ _ _ Hr) as U1.
  pose proof (iteration_framed P c io h h0 raw hr Ha Hr) as Hit.
  assert (exists h', iteration P c io h = (Val Continue, h') /\
                     untouched (srv hr) (srv h') /\
                     sends (trace (srv h')) = sends (trace (srv hr)))
    as (h' & Hi & U2 & Hs).
  { rewrite Hit. unfold decode; run_handler.
    destruct Hbad as [(e & ->) | (m & -> & Ht)].
    - eexists; split; [reflexivity|]; simpl; split; [unfold untouched; simpl; auto|].
      reflexivity.
    - rewrite Ht; simpl opt_str_eqb; cbv iota.
      eexists; split; [reflexivity|]; simpl; split; [unfold untouched; simpl; auto|].
      reflexivity. }
  exists h'; split; [exact Hi|]. split.
  - eapply untouched_trans; [exact U0|]. eapply untouched_trans; eassumption.
  - split; [exact Hs|].
    intros rest; cbn [client_loop]. rewrite (bind_val _ _ _ _ _ Hi); reflexivity.
Qed.

Lemma rejected_frame_keeps_connection_sample :
  let h := mk_hstate Sample.first_identified 10 in
  let garbled := Sample.delivers 11 [x01; x00; xff; x00] [] in
  let invalid := Sample.delivers 11 [x01; x00; xfe; x00] [] in
  (exists h', iteration Sample.proto Sample.truck_a garbled h = (Val Continue, h') /\
              untouched (srv h) (srv h'))
  /\ (exists h', iteration Sample.proto Sample.truck_a invalid h = (Val Continue, h') /\
                 untouched (srv h) (srv h')).
Proof.
  intros h garbled invalid. split.
  - destruct (rejected_frame_keeps_connection Sample.proto Sample.truck_a garbled h h
                [x01; x00; xff; x00] (snd (read_frame Sample.truck_a garbled h))
                eq_refl eq_refl) as (h' & E & U & _).
    + left; eexists; reflexivity.
    + exists h'; split; [exact E | exact U].
  - destruct (rejected_frame_keeps_connection Sample.proto Sample.truck_a invalid h h
                [x01; x00; xfe; x00] (snd (read_frame Sample.truck_a invalid h))
                eq_refl eq_refl) as (h' & E & U & _).
    + right; eexists; split; reflexivity.
    + exists h'; split; [exact E | exact U].
Defined.



(** X11: an unexpected error does not end the connection.  When a [recv]
    raises an exception that is neither a connection reset, a connection
    abort nor a timeout, the pass logs it and ends with [continue]; nothing
    is written or closed and the loop goes on reading. *)
Theorem unexpected_error_keeps_connection (P : codec) (c : conn) (io : iter_io)
    (h h0 h1 : hstate) (e : exn) :
  reaches_read c io h h0 ->
  read_frame c io h0 = (Raise e, h1) ->
  exn_cls e <> ConnectionResetError ->
  exn_cls e <> ConnectionAbortedError ->
  exn_cls e <> SocketTimeout ->
  iteration P c io h
  = (Val Continue,
     mk_hstate (emit (EvLog LogIterationError) (srv h1)) (last_activity_time h1))
  /\ untouched (srv h) (srv h1)
  /\ forall rest,
       client_loop P c (io :: rest) h
       = client_loop P c rest
           (mk_hstate (emit (EvLog LogIterationError) (srv h1)) (last_activity_time h1)).
Proof.
  intros Ha Hr H1 H2 H3.
  destruct (activity_check_frame _ _ _ _ _ Ha) as (_ & U0).
  pose proof (read_frame_frame _ _ _ _ _ Hr) as U1.
  assert (Hi : iteration P c io h
               = (Val Continue,
                  mk_hstate (emit (EvLog LogIterationError) (srv h1))
                    (last_activity_time h1))).
  { unfold reaches_read in Ha.
    unfold iteration, try_except, iteration_body.
    rewrite (bind_val _ _ _ _ _ Ha); cbv iota.
    rewrite (bind_raise _ _ _ _ _ Hr). unfold any_exception.
    destruct (exn_cls e); try congruence; reflexivity. }
  split; [exact Hi|]. split; [eapply untouched_trans; eassumption|].
  intros rest; cbn [client_loop]. rewrite (bind_val _ _ _ _ _ Hi); reflexivity.
Qed.

Lemma unexpected_error_keeps_connection_sample :
  let h := mk_hstate Sample.first_identified 10 in
  let io := Sample.recv_raises 11 (mk_exn OSError "[Errno 9] Bad file descriptor") in
  fst (iteration Sample.proto Sample.truck_a io h) = Val Continue.
Proof.
  intros h io.
  destruct (unexpected_error_keeps_connection Sample.proto Sample.truck_a io h h h
              (mk_exn OSError "[Errno 9] Bad file descriptor") eq_refl eq_refl)
    as (E & _); try discriminate.
  rewrite E; reflexivity.
Defined.

(** X12: the long-silence check.  Once more than 300 seconds have passed
    since the last activity, the pass starts by writing zero bytes to the
    socket.  If that write raises, the loop is left at once, before any
    [recv]; if it succeeds, [last_activity_time] moves to the time of the
    pass and the read follows.  At 300 seconds or less nothing is written
    before the read. *)
Theorem long_silence_check (P : codec) (c : conn) (io : iter_io) (h : hstate) :
  ((io_now io - last_activity_time h > 300)%Z ->
   (forall e, io_probe io = inl e ->
      iteration P c io h
      = (Val Break,
         mk_hstate
           (emit (EvLog LogConnectionLost)
              (emit (EvSend (client_sock c) [] false)
                 (emit (EvLog LogActivityCheck) (srv h))))
           (last_activity_time h)))
   /\ (io_probe io = inr tt ->
       reaches_read c io h
         (mk_hstate
            (emit (EvLog LogConnectionAlive)
               (emit (EvSend (client_sock c) [] true)
                  (emit (EvLog LogActivityCheck) (srv h))))
            (io_now io))))
  /\ ((io_now io - last_activity_time h <= 300)%Z -> reaches_read c io h h).
Proof.
  split.
  - intros Hlate.
    assert (Hgt : (io_now io - last_activity_time h >? 300)%Z = true)
      by (apply Z.gtb_lt; lia).
    split.
    + intros e He.
      unfold iteration, try_except, iteration_body, activity_check; run_handler.
      rewrite Hgt, He; reflexivity.
    + intros Hok. unfold reaches_read, activity_check; run_handler.
      rewrite Hgt, Hok; reflexivity.
  - intros Hearly.
    assert (Hle : (io_now io - last_activity_time h >? 300)%Z = false).
    { destruct (io_now io - last_activity_time h >? 300)%Z eqn:E; [|reflexivity].
      apply Z.gtb_lt in E; lia. }
    unfold reaches_read, activity_check; run_handler.
    rewrite Hle. destruct h; reflexivity.
Qed.

Lemma long_silence_check_sample :
  let h := mk_hstate Sample.first_identified 10 in
  let io := mk_iter_io 400 (inl Sample.reset) (inr [x01; x00; x01; x00]) (inr [])
              Sample.ok Sample.ok Sample.ok Sample.ok 400 in
  fst (iteration Sample.proto Sample.truck_a io h) = Val Break
  /\ sends (trace (srv (snd (iteration Sample.proto Sample.truck_a io h))))
     = [(1, [], false)]
  /\ reaches_read Sample.truck_a (Sample.delivers 300 [] []) h h.
Proof.
  intros h io.
  destruct (long_silence_check Sample.proto Sample.truck_a io h) as (Hlate & _).
  destruct (Hlate ltac:(simpl; lia)) as (Hfail & _).
  rewrite (Hfail Sample.reset eq_refl).
  split; [reflexivity|]. split; [reflexivity|].
  destruct (long_silence_check Sample.proto Sample.truck_a (Sample.delivers 300 [] []) h)
    as (_ & Hearly).
  apply Hearly; simpl; lia.
Defined.

(** ** What no pass does *)

Lemma dict_set_NoDup (k : string) (v : sock) (d : dict string sock) :
  NoDup (dict_keys d) -> NoDup (dict_keys (dict_set k v d)).
Proof.
  induction d as [|[k0 v0] d IH]; cbn [dict_set dict_keys map fst].
  - intros _; repeat constructor; simpl; tauto.
  - intros Hnd; inversion Hnd as [|? ? Hnotin Hnd']; subst.
    unfold keq, string_KeyEq. destruct (String.eqb k k0) eqn:E; cbn [map fst].
    + exact Hnd.
    + constructor; [|apply IH; exact Hnd'].
      intros Hin. apply (dict_set_keys k v d k0) in Hin.
      apply String.eqb_neq in E. destruct Hin as [Heq|Hin]; [congruence | tauto].
Qed.

Lemma dict_del_NoDup (k : string) (d : dict string sock) :
  NoDup (dict_keys d) -> NoDup (dict_keys (dict_del k d)).
Proof.
  induction d as [|[k0 v0] d IH]; cbn [dict_del dict_keys map fst]; [auto|].
  intros Hnd; inversion Hnd as [|? ? Hnotin Hnd']; subst.
  unfold keq, string_KeyEq. destruct (String.eqb k k0); cbn [map fst]; [exact Hnd'|].
  constructor; [|apply IH; exact Hnd'].
  intros Hin; apply Hnotin. exact (dict_del_keys k d k0 Hin).
Qed.

Lemma promoted_NoDup c m reg :
  NoDup (dict_keys reg) -> NoDup (dict_keys (promoted c m reg)).
Proof.
  intros Hnd; unfold promoted.
  destruct (msg_sender m) as [tid|]; [|exact Hnd].
  destruct (truthy (Some tid)); [|exact Hnd].
  apply dict_set_NoDup. destruct (negb _ && _); [apply dict_del_NoDup|]; exact Hnd.
Qed.

Lemma promoted_entries c m reg k s :
  In (k, s) (promoted c m reg) -> In (k, s) reg \/ s = client_sock c.
Proof.
  unfold promoted.
  destruct (msg_sender m) as [tid|]; [|auto].
  destruct (truthy (Some tid)); [|auto].
  intros Hin; apply dict_set_entries in Hin. destruct Hin as [[_ ->]|Hin]; [auto|].
  left. destruct (negb _ && _); [apply dict_del_entries in Hin|]; exact Hin.
Qed.

Lemma decode_val P raw h r h' :
  decode P raw h = (r, h') -> exists f, r = Val f.
Proof.
  unfold decode; run_handler.
  destruct (parse_message P raw) as [e|m]; simpl;
    [|destruct (opt_str_eqb (msg_type m) "INVALID")]; simpl;
    intros [= <- <-]; eauto.
Qed.

Lemma on_timeout_frame P c io h1 :
  exists j h2, on_timeout P c io h1 = (Val j, h2) /\ untouched (srv h1) (srv h2).
Proof.
  unfold on_timeout; run_handler. cbn [srv truck_sockets emit last_activity_time].
  destruct (truthy _);
    [destruct (build_message P _ _ _ _) as [e|probe];
     [|destruct (io_check io) as [e|[]]]|];
    do 2 eexists; (split; [reflexivity|]); unfold untouched; simpl; auto.
Qed.

Lemma iteration_cases P c io h :
  exists j h',
    iteration P c io h = (Val j, h') /\
    closed (srv h') = closed (srv h) /\
    clients (srv h') = clients (srv h) /\
    (truck_sockets (srv h') = truck_sockets (srv h) \/
     exists m, truck_sockets (srv h') = promoted c m (truck_sockets (srv h))).
Proof.
  destruct (activity_check c io h) as [ra h0] eqn:Ea.
  destruct (activity_check_frame _ _ _ _ _ Ea) as ((b & ->) & (R0 & C0 & K0 & _)).
  destruct b.
  { exists Break, h0. split.
    - unfold iteration, try_except, iteration_body.
      rewrite (bind_val _ _ _ _ _ Ea); reflexivity.
    - auto. }
  destruct (read_frame c io h0) as [rf h1] eqn:Er.
  destruct (read_frame_frame _ _ _ _ _ Er) as (R1 & C1 & K1 & _).
  pose proof (read_frame_result _ _ _ _ _ Er) as Hnb.
  destruct rf as [[raw|j]|e|]; [| | |congruence].
  - rewrite (iteration_framed P c io h h0 raw h1 Ea Er).
    unfold try_except.
    destruct (decode P raw (snd (lift (log LogRawData) h1))) as [rd h2] eqn:Ed.
    destruct (decode_val _ _ _ _ _ Ed) as (f & ->).
    destruct (decode_frame _ _ _ _ _ Ed) as ((R2 & C2 & K2 & _) & _).
    simpl in R2, C2, K2.
    rewrite (bind_val _ _ _ _ _ Ed).
    destruct f as [m|j].
    + destruct (register_spec c io m h2) as (h3 & E3 & R3 & C3 & K3 & _).
      destruct (dispatch_returns P c io m h3) as (h4 & E4 & R4 & C4 & K4).
      rewrite (bind_val _ _ _ _ _ E3), E4.
      exists Continue, h4. split; [reflexivity|].
      split; [congruence|]. split; [congruence|].
      right; exists m. rewrite R4, R3. f_equal. congruence.
    + exists j, h2. split; [reflexivity|].
      split; [congruence|]. split; [congruence|]. left; congruence.
  - exists j, h1. split; [exact (iteration_jump P c io h h0 h1 j Ea Er)|].
    split; [congruence|]. split; [congruence|]. left; congruence.
  - assert (Hit : iteration P c io h
                  = match exn_cls e with
                    | ConnectionResetError =>
                        (Val Break,
                         mk_hstate (emit (EvLog LogConnectionReset) (srv h1))
                           (last_activity_time h1))
                    | ConnectionAbortedError =>
                        (Val Break,
                         mk_hstate (emit (EvLog LogConnectionAborted) (srv h1))
                           (last_activity_time h1))
                    | SocketTimeout => on_timeout P c io h1
                    | _ =>
                        (Val Continue,
                         mk_hstate (emit (EvLog LogIterationError) (srv h1))
                           (last_activity_time h1))
                    end).
    { unfold iteration, try_except, iteration_body.
      rewrite (bind_val _ _ _ _ _ Ea); cbv iota.
      rewrite (bind_raise _ _ _ _ _ Er). unfold any_exception.
      destruct (exn_cls e); reflexivity. }
    rewrite Hit.
    destruct (on_timeout_frame P c io h1) as (jt & ht & Et & (Rt & Ct & Kt & _)).
    destruct (exn_cls e);
      try (do 2 eexists; split; [reflexivity|]; simpl;
           split; [congruence|]; split; [congruence|]; left; congruence).
    rewrite Et. exists jt, ht. split; [reflexivity|].
    split; [congruence|]. split; [congruence|]. left; congruence.
Qed.


(** X14: a pass keeps the registry well formed and registers nobody else.
    If the registry has each key once and no empty key before the pass, it
    has so after it, and every entry after the pass either was there before
    or maps to this connection's own socket. *)
Theorem pass_keeps_registry_wellformed (P : codec) (c : conn) (io : iter_io)
    (h : hstate) :
  NoDup (dict_keys (truck_sockets (srv h))) ->
  ~ In ""%string (dict_keys (truck_sockets (srv h))) ->
  let reg' := truck_sockets (srv (snd (iteration P c io h))) in
  NoDup (dict_keys reg') /\
  ~ In ""%string (dict_keys reg') /\
  forall k s, In (k, s) reg' -> In (k, s) (truck_sockets (srv h)) \/ s = client_sock c.
Proof.
  intros Hnd Hne reg'; subst reg'.
  destruct (iteration_cases P c io h) as (j & h' & E & _ & _ & [R|(m & R)]);
    rewrite E; cbn [snd]; rewrite R.
  - split; [exact Hnd|]. split; [exact Hne | auto].
  - split; [apply promoted_NoDup; exact Hnd|].
    split; [apply promoted_keys_nonempty; exact Hne|].
    intros k s; apply promoted_entries.
Qed.

Lemma pass_keeps_registry_wellformed_sample :
  let h := mk_hstate
             (snd (handler_setup Sample.truck_b (Sample.quiet []) Sample.first_identified))
             0 in
  let io := Sample.delivers 20 [x02; x00; x02; x00] [] in
  NoDup (dict_keys (truck_sockets (srv (snd (iteration Sample.proto Sample.truck_b io h))))).
Proof.
  intros h io.
  destruct (pass_keeps_registry_wellformed Sample.proto Sample.truck_b io h) as (H & _).
  - simpl. repeat constructor; simpl; intuition discriminate.
  - simpl; intuition discriminate.
  - exact H.
Defined.

(** ** The [finally] block *)

Lemma dict_del_app (k : string) (v : sock) (pre post : dict string sock) :
  ~ In k (dict_keys pre) -> dict_del k (pre ++ (k, v) :: post) = pre ++ post.
Proof.
  unfold dict_keys.
  induction pre as [|[k0 v0] pre IH]; cbn [app dict_del map fst In];
    unfold keq, string_KeyEq.
  - intros _; rewrite String.eqb_refl; reflexivity.
  - intros Hn. destruct (String.eqb k k0) eqn:E.
    + apply String.eqb_eq in E; subst; tauto.
    + f_equal; apply IH; tauto.
Qed.

Lemma purge_loop c :
  forall (xs pre : dict string sock) (st : state),
    truck_sockets st = pre ++ xs ->
    NoDup (dict_keys (pre ++ xs)) ->
    (forall k v, In (k, v) pre -> v <> client_sock c) ->
    exists st',
      for_each xs
        (fun item =>
           if Nat.eqb (snd item) (client_sock c) then
             modify (set_truck_sockets (dict_del (fst item))) ;;
             log LogTruckDisconnected
           else ret tt) st = (Val tt, st') /\
      truck_sockets st' = pre ++ purge (client_sock c) xs /\
      clients st' = clients st /\ closed st' = closed st /\
      sends (trace st') = sends (trace st) /\
      consumer_calls (trace st') = consumer_calls (trace st).
Proof.
  induction xs as [|[k v] xs IH]; intros pre st Hreg Hnd Hpre.
  - exists st; cbn [for_each purge filter]. unfold ret. auto 7.
  - cbn [for_each purge filter fst snd].
    destruct (Nat.eqb_spec v (client_sock c)) as [->|Hne]; cbn [negb].
    + assert (Hk : ~ In k (dict_keys pre)).
      { unfold dict_keys in *. rewrite map_app in Hnd. cbn [map fst] in Hnd.
        apply NoDup_remove_2 in Hnd. intros Hin; apply Hnd, in_or_app; auto. }
      set (st1 := emit (EvLog LogTruckDisconnected)
                    (set_truck_sockets (dict_del k) st)).
      destruct (IH pre st1) as (st' & E & R & C & K & S & Q).
      * subst st1; cbn [truck_sockets emit set_truck_sockets].
        rewrite Hreg; apply dict_del_app; exact Hk.
      * unfold dict_keys in *. rewrite map_app in *. cbn [map fst] in Hnd.
        apply NoDup_remove_1 in Hnd; exact Hnd.
      * exact Hpre.
      * exists st'. split; [|auto 6].
        rewrite <- E. reflexivity.
    + destruct (IH (pre ++ [(k, v)]) st) as (st' & E & R & C & K & S & Q).
      * rewrite <- app_assoc; exact Hreg.
      * rewrite <- app_assoc; exact Hnd.
      * intros k' v' Hin; apply in_app_or in Hin.
        destruct Hin as [Hin|[[= <- <-]|[]]]; [eapply Hpre; exact Hin | exact Hne].
      * exists st'. split; [rewrite <- E; reflexivity|].
        rewrite <- app_assoc in R. auto 6.
Qed.

Lemma cleanup_spec c cio st :
  io_close cio = inr tt ->
  NoDup (dict_keys (truck_sockets st)) ->
  exists st',
    cleanup c cio st = (Val tt, st') /\
    truck_sockets st' = purge (client_sock c) (truck_sockets st) /\
    clients st'
    = (if dict_mem (KAddr (client_addr c)) (clients st)
       then dict_del (KAddr (client_addr c)) (clients st)
       else clients st) /\
    closed st' = client_sock c :: closed st /\
    sends (trace st') = sends (trace st) /\
    consumer_calls (trace st') = consumer_calls (trace st).
Proof.
  intros Hclose Hnd. unfold cleanup, try_except. rewrite Hclose.
  set (st1 := mark_closed (client_sock c) (emit (EvClose (client_sock c)) st)).
  rewrite (bind_val (sock_close (client_sock c) (inr tt)) _ st tt st1 eq_refl).
  rewrite (bind_val (gets truck_sockets) _ st1 (truck_sockets st1) st1 eq_refl).
  destruct (purge_loop c (truck_sockets st1) [] st1 eq_refl Hnd)
    as (st2 & E & R & C & K & S & Q); [intros k v []|].
  rewrite (bind_val _ _ _ _ _ E).
  cbn [app] in R.
  run_monad. rewrite C.
  change (clients st1) with (clients st).
  destruct (dict_mem (KAddr (client_addr c)) (clients st));
    destruct (io_commander_final cio) as [e|[]];
    eexists; (split; [reflexivity|]); simpl;
    rewrite ?R, ?C, ?K, ?S, ?Q; auto 6.
Qed.

(** X15: the [finally] block takes the connection out of the server.
    When [close()] returns, the socket is closed, no registry key maps to it
    any more, entries of other sockets are exactly as before, the
    connection's address is no longer a key of [clients] and no other
    [clients] entry is added; the block itself never raises. *)
Theorem cleanup_unregisters_connection (c : conn) (cio : conn_io) (st : state) :
  io_close cio = inr tt ->
  NoDup (dict_keys (truck_sockets st)) ->
  NoDup (dict_keys (clients st)) ->
  let st' := snd (cleanup c cio st) in
  fst (cleanup c cio st) = Val tt /\
  In (client_sock c) (closed st') /\
  ~ registered (client_sock c) (truck_sockets st') /\
  (forall k s, s <> client_sock c ->
               (In (k, s) (truck_sockets st') <-> In (k, s) (truck_sockets st))) /\
  dict_get (KAddr (client_addr c)) (clients st') = None /\
  (forall item, In item (clients st') -> In item (clients st)).
Proof.
  intros Hclose Hnd Hndc st'; subst st'.
  destruct (cleanup_spec c cio st Hclose Hnd) as (st' & E & R & C & K & _).
  rewrite E; cbn [fst snd]. split; [reflexivity|].
  split; [rewrite K; left; reflexivity|].
  split.
  { intros (k & Hin). rewrite R in Hin. unfold purge in Hin.
    apply filter_In in Hin. destruct Hin as (_ & Hf). cbn [snd] in Hf.
    rewrite Nat.eqb_refl in Hf; discriminate. }
  split.
  { intros k s Hs. rewrite R. unfold purge. rewrite filter_In. cbn [snd].
    destruct (Nat.eqb_spec s (client_sock c)) as [->|_]; [congruence|].
    cbn [negb]; tauto. }
  rewrite C.
  destruct (dict_mem (KAddr (client_addr c)) (clients st)) eqn:Hm.
  - split; [apply (dict_get_del_same pykey_eqb_eq); exact Hndc|].
    intros item; apply dict_del_subset.
  - split; [apply dict_get_missing; exact Hm | auto].
Qed.

Lemma cleanup_unregisters_connection_sample :
  let c := mk_conn 1 ("10.0.0.7"%string, 5000%N) in
  truck_sockets (snd (cleanup c (Sample.quiet []) one_truck)) = []
  /\ ~ registered 1 (truck_sockets (snd (cleanup c (Sample.quiet []) one_truck)))
  /\ dict_get (KAddr ("10.0.0.7"%string, 5000%N))
       (clients (snd (cleanup c (Sample.quiet []) one_truck))) = None.
Proof.
  intros c.
  destruct (cleanup_unregisters_connection c (Sample.quiet []) one_truck eq_refl)
    as (_ & _ & Hreg & _ & Hcl & _).
  - simpl. repeat constructor; simpl; tauto.
  - simpl. repeat constructor; simpl; tauto.
  - split; [reflexivity|]. split; [exact Hreg | exact Hcl].
Defined.

(** X16: when [close()] raises, the [finally] block stops there.  The
    error is logged and swallowed, and the registry and [clients] keep every
    entry of the now closed socket. *)
Theorem cleanup_stops_when_close_raises (c : conn) (cio : conn_io) (st : state)
    (e : exn) :
  io_close cio = inl e ->
  cleanup c cio st
  = (Val tt,
     emit (EvLog LogCleanupError)
       (mark_closed (client_sock c) (emit (EvClose (client_sock c)) st)))
  /\ truck_sockets (snd (cleanup c cio st)) = truck_sockets st
  /\ clients (snd (cleanup c cio st)) = clients st
  /\ In (client_sock c) (closed (snd (cleanup c cio st))).
Proof.
  intros Hclose.
  assert (E : cleanup c cio st
              = (Val tt,
                 emit (EvLog LogCleanupError)
                   (mark_closed (client_sock c) (emit (EvClose (client_sock c)) st))))
    by (unfold cleanup; rewrite Hclose; reflexivity).
  rewrite E; cbn [snd]. split; [reflexivity|]. simpl; auto.
Qed.

Lemma cleanup_stops_when_close_raises_sample :
  let c := mk_conn 1 ("10.0.0.7"%string, 5000%N) in
  let cio := mk_conn_io Sample.ok Sample.ok 0 []
               (Sample.fails OSError "[Errno 9] Bad file descriptor") Sample.ok in
  truck_sockets (snd (cleanup c cio one_truck)) = [("TRUCK_1"%string, 1)]
  /\ In 1 (closed (snd (cleanup c cio one_truck))).
Proof.
  intros c cio.
  destruct (cleanup_stops_when_close_raises c cio one_truck
              (mk_exn OSError "[Errno 9] Bad file descriptor") eq_refl)
    as (_ & R & _ & K).
  split; [exact R | exact K].
Defined.

(** ** A handler from start to end *)






(** ** Which sockets [safe_stop] closes *)

Lemma close_tracked_loop sio :
  forall (xs : dict pykey client_val) (st : state),
    exists st',
      for_each xs (close_tracked sio) st = (Val tt, st') /\
      running st' = running st /\ server_sock st' = server_sock st /\
      forall s, In s (closed st') <->
                In s (closed st) \/
                exists k, In (k, PlainSocket s) xs /\ io_client_shutdown sio s = inr tt.
Proof.
  induction xs as [|[k v] xs IH]; intros st; cbn [for_each].
  - exists st. split; [reflexivity|]. split; [reflexivity|]. split; [reflexivity|].
    intros s; split; [auto | intros [H|(k & [] & _)]; exact H].
  - assert (Hstep : exists st1,
              close_tracked sio (k, v) st = (Val tt, st1) /\
              running st1 = running st /\ server_sock st1 = server_sock st /\
              forall s, In s (closed st1) <->
                        In s (closed st) \/
                        (v = PlainSocket s /\ io_client_shutdown sio s = inr tt)).
    { destruct v as [s0|s0]; unfold close_tracked; run_monad; cbn [snd].
      - destruct (io_client_shutdown sio s0) as [e|[]] eqn:Hsh.
        + eexists; split; [reflexivity|]; simpl.
          split; [reflexivity|]. split; [reflexivity|].
          intros s; split; [auto|]. intros [H|([= <-] & H)]; [exact H | congruence].
        + destruct (io_client_close sio s0) as [e|[]];
            eexists; (split; [reflexivity|]); simpl;
            (split; [reflexivity|]); (split; [reflexivity|]);
            intros s; (split; [intros [<-|H]; [right; split; [reflexivity | exact Hsh] | auto]
                              |intros [H|([= <-] & _)]; auto]).
      - eexists; split; [reflexivity|]; simpl.
        split; [reflexivity|]. split; [reflexivity|].
        intros s; split; [auto|]. intros [H|(Hv & _)]; [exact H | discriminate]. }
    destruct Hstep as (st1 & E1 & R1 & S1 & K1).
    destruct (IH st1) as (st' & E & R & S & K).
    rewrite (bind_val _ _ _ _ _ E1).
    exists st'. split; [exact E|]. split; [congruence|]. split; [congruence|].
    intros s; rewrite K, K1. split.
    + intros [[H|(Hv & Hsh)]|(k' & Hin & Hsh)]; auto.
      * right; exists k; split; [left; congruence | exact Hsh].
      * right; exists k'; split; [right; exact Hin | exact Hsh].
    + intros [H|(k' & [Heq|Hin] & Hsh)]; auto.
      * injection Heq as -> ->. left; right; split; [reflexivity | exact Hsh].
      * right; exists k'; split; [exact Hin | exact Hsh].
Qed.

(** X18: [safe_stop] on a running server closes the listening socket and
    every tracked socket whose [shutdown] succeeded, and no other: a tracked
    socket whose [shutdown] raised is left unclosed (its [close] is skipped),
    although its entry is dropped like all the others. *)
Theorem safe_stop_closes_after_shutdown (sio : stop_io) (st : state) :
  running st = true ->
  forall s,
    In s (closed (snd (safe_stop sio st))) <->
    In s (closed st) \/
    (exists k, In (k, PlainSocket s) (clients st) /\ io_client_shutdown sio s = inr tt) \/
    server_sock st = Some s.
Proof.
  intros Hr s. unfold safe_stop.
  cbv [bind gets modify log ret]; rewrite Hr; cbv [negb].
  set (st1 := emit (EvLog LogSafeStopBegin) (set_running false st)).
  destruct (close_tracked_loop sio (clients st1) st1) as (st2 & E2 & _ & S2 & K2).
  rewrite E2.
  change (clients st1) with (clients st) in K2.
  change (closed st1) with (closed st) in K2.
  change (server_sock st1) with (server_sock st) in S2.
  clearbody st1. clear E2.
  run_monad. rewrite S2.
  destruct (server_sock st) as [s0|]; simpl.
  - destruct (io_server_shutdown sio) as [e|[]], (io_server_close sio) as [e'|[]];
      simpl; rewrite K2;
      (split; [intros [<-|[H|H]]; auto | intros [H|[H|[= <-]]]; auto]).
  - rewrite K2. split; [intros [H|H]; auto | intros [H|[H|H]]; [auto | auto | discriminate]].
Qed.

Lemma safe_stop_closes_after_shutdown_sample :
  let sio := mk_stop_io
               (fun s => if Nat.eqb s 1
                         then Sample.fails OSError "[Errno 107] Transport endpoint is not connected"
                         else Sample.ok)
               (fun _ => Sample.ok) Sample.ok Sample.ok in
  let st := mk_state "0.0.0.0" 8000
              [(KAddr ("10.0.0.7"%string, 5000%N), PlainSocket 1);
               (KAddr ("10.0.0.7"%string, 5001%N), PlainSocket 2)]
              [] true (Some 0) [] 3 [] in
  In 2 (closed (snd (safe_stop sio st)))
  /\ In 0 (closed (snd (safe_stop sio st)))
  /\ ~ In 1 (closed (snd (safe_stop sio st)))
  /\ clients (snd (safe_stop sio st)) = [].
Proof.
  intros sio st.
  pose proof (safe_stop_closes_after_shutdown sio st eq_refl) as H.
  split; [apply H; right; left;
          exists (KAddr ("10.0.0.7"%string, 5001%N)); split; [right; left|]; reflexivity|].
  split; [apply H; right; right; reflexivity|].
  split; [|reflexivity].
  intros Hin; apply H in Hin.
  destruct Hin as [[]|[(k & _ & Hsh)|Hs]]; discriminate.
Defined.

(** ** Identification, tracking and delivery *)

(** X19: the first identification moves the registration.  When a decoded
    message carries a non-empty sender that is not yet a key of the
    registry, and the socket was registered under its temporary key only,
    then after the pass the temporary key is gone, the sender maps to the
    socket, and the sender is the only key that does. *)
Theorem first_identification_moves_registration (P : codec) (c : conn) (io : iter_io)
    (h : hstate) (m : message) (h1 : hstate) (tid : string) :
  receives P c io h m h1 ->
  msg_sender m = Some tid ->
  tid <> ""%string ->
  tid <> temp_truck_id c ->
  NoDup (dict_keys (truck_sockets (srv h))) ->
  dict_mem tid (truck_sockets (srv h)) = false ->
  (forall k, In (k, client_sock c) (truck_sockets (srv h)) -> k = temp_truck_id c) ->
  exists h2,
    iteration P c io h = (Val Continue, h2) /\
    dict_get (temp_truck_id c) (truck_sockets (srv h2)) = None /\
    dict_get tid (truck_sockets (srv h2)) = Some (client_sock c) /\
    forall k, In (k, client_sock c) (truck_sockets (srv h2)) -> k = tid.
Proof.
  intros Hrec Hs Hne Htemp Hnd Hfresh Honly.
  pose proof (iteration_received P c io h m h1 Hrec) as Hit.
  destruct (receives_frame P c io h m h1 Hrec) as (Hreg & _).
  destruct (register_spec c io m h1) as (h' & E & Hr' & _).
  destruct (dispatch_returns P c io m h') as (h2 & E2 & Hr2 & _).
  rewrite (bind_val _ _ _ _ _ E), E2 in Hit.
  assert (Hfinal : truck_sockets (srv h2) = promoted c m (truck_sockets (srv h)))
    by congruence.
  exists h2; split; [exact Hit|]. rewrite Hfinal.
  apply first_identification_replaces_temporary; assumption.
Qed.

Lemma first_identification_moves_registration_sample :
  let c := mk_conn 1 ("10.0.0.7"%string, 5000%N) in
  let h := mk_hstate one_waiting 0 in
  let io := Sample.delivers 10 [x01; x00; x02; x00] [] in
  exists h2,
    iteration Sample.proto c io h = (Val Continue, h2) /\
    dict_get "TEMP_5000"%string (truck_sockets (srv h2)) = None /\
    dict_get "TRUCK_1"%string (truck_sockets (srv h2)) = Some 1.
Proof.
  intros c h io.
  set (m := mk_message None (Some "TRUCK_1"%string) (Some "STATUS"%string) []).
  set (hr := snd (read_frame c io h)).
  set (h1 := snd (decode Sample.proto [x01; x00; x02; x00] (snd (lift (log LogRawData) hr)))).
  assert (Hrec : receives Sample.proto c io h m h1).
  { exists h, hr, [x01; x00; x02; x00]; repeat split; reflexivity. }
  destruct (first_identification_moves_registration Sample.proto c io h m h1
              "TRUCK_1"%string Hrec eq_refl) as (h2 & E & T & G & _).
  - discriminate.
  - discriminate.
  - simpl. repeat constructor; simpl; tauto.
  - reflexivity.
  - intros k [Heq|[]]. injection Heq as <-. reflexivity.
  - exists h2; split; [exact E|]; split; [exact T | exact G].
Defined.

Lemma send_message_unknown_client_sample :
  fst (send_message Sample.proto (KStr "UNKNOWN") "CMD" (Some []) Sample.ok one_truck)
  = Val false
  /\ sends (trace (snd (send_message Sample.proto (KStr "UNKNOWN") "CMD" (Some [])
                          Sample.ok one_truck)))
     = sends (trace one_truck).
Proof.
  destruct (send_message_unknown_client Sample.proto (KStr "UNKNOWN") "CMD" (Some [])
              Sample.ok one_truck eq_refl) as (R & _ & S).
  split; [exact R | exact S].
Defined.

(** X21: an accepted connection is tracked under its address.  While the
    server runs, [accept()] returning a connection from [a] stores a new
    socket object under [a] in [clients], replacing whatever was stored
    under [a], starts a handler for exactly that socket and address, and
    the accept loop goes on; the registry is not touched. *)
Theorem accept_tracks_connection (a : addr) (rest : list accept_event) (st : state) :
  running st = true ->
  exists st1,
    accept_loop (Accepted a :: rest) st = accept_loop rest st1 /\
    dict_get (KAddr a) (clients st1) = Some (PlainSocket (next_sock st)) /\
    hd_error (trace st1) = Some (EvSpawnHandler (next_sock st) a) /\
    next_sock st1 = S (next_sock st) /\
    truck_sockets st1 = truck_sockets st /\
    running st1 = true /\
    closed st1 = closed st.
Proof.
  intros Hr. cbn [accept_loop]. run_monad. rewrite Hr; cbn [negb].
  eexists; split; [reflexivity|]. simpl.
  split; [|auto 6].
  generalize (clients st); intros d.
  induction d as [|[k v] d IH]; simpl; unfold keq, pykey_KeyEq.
  - rewrite (proj2 (pykey_eqb_eq (KAddr a) (KAddr a)) eq_refl); reflexivity.
  - destruct (pykey_eqb (KAddr a) k) eqn:E; simpl; unfold keq, pykey_KeyEq; rewrite E;
      [reflexivity | exact IH].
Qed.

Lemma accept_tracks_connection_sample :
  exists st1,
    accept_loop [Accepted ("10.0.0.7"%string, 5000%N)] one_truck = accept_loop [] st1 /\
    dict_get (KAddr ("10.0.0.7"%string, 5000%N)) (clients st1) = Some (PlainSocket 2).
Proof.
  destruct (accept_tracks_connection ("10.0.0.7"%string, 5000%N) [] one_truck eq_refl)
    as (st1 & E & G & _).
  exists st1; split; [exact E | exact G].
Defined.

(** X22: the one way [send_message] delivers.  When [clients] holds under
    the identifier a record with a "socket" field, the codec encodes the
    message from SERVER to that identifier and the write succeeds,
    [send_message] returns [True] after exactly one write, of the encoded
    bytes, to the record's socket; nothing else changes. *)
Theorem send_message_delivers_to_record (P : codec) (client_id : pykey) (cmd : string)
    (pl : option payload) (st : state) (s : sock) (data : bytes) :
  dict_get client_id (clients st) = Some (SocketRecord s) ->
  build_message P "SERVER" (Some client_id) cmd
    (match pl with None => [] | Some p => p end) = inr data ->
  fst (send_message P client_id cmd pl (inr tt) st) = Val true /\
  sends (trace (snd (send_message P client_id cmd pl (inr tt) st)))
  = (s, data, true) :: sends (trace st) /\
  untouched st (snd (send_message P client_id cmd pl (inr tt) st)).
Proof.
  intros Hget Hbuild. unfold send_message, subscript_socket; run_monad.
  destruct (negb (String.eqb cmd "HEARTBEAT_ACK")); cbv beta iota;
    change (clients (emit _ st)) with (clients st); rewrite Hget, Hbuild;
    unfold untouched; simpl; auto 6.
Qed.

Lemma send_message_delivers_to_record_sample :
  let st := mk_state "0.0.0.0" 8000 [(KStr "TRUCK_1", SocketRecord 1)]
              [("TRUCK_1"%string, 1)] true (Some 0) [] 2 [] in
  fst (send_message Sample.proto (KStr "TRUCK_1") "RUN" None (inr tt) st) = Val true
  /\ sends (trace (snd (send_message Sample.proto (KStr "TRUCK_1") "RUN" None (inr tt) st)))
     = [(1, [x7f; x01; x12; x00], true)].
Proof.
  intros st.
  destruct (send_message_delivers_to_record Sample.proto (KStr "TRUCK_1") "RUN" None st 1
              [x7f; x01; x12; x00] eq_refl eq_refl) as (R & S & _).
  split; [exact R | exact S].
Defined.
